(** * DB.py: the PDFLoader multi-vector index, embedded in Rocq

    The development follows [src/DB.py].  The class [PDFLoader] partitions
    a PDF, separates composite text chunks, tables and embedded images,
    asks two language models for summaries, and binds summaries and
    original contents together through freshly drawn identifiers: the
    summaries go to a vector store ([vDB]), the originals to a keyed
    document store ([docDB]).

    Python objects are records, the dictionary of [InMemoryStore] is a
    [gmap], the collection behind [Chroma] is the list of the documents
    added so far, and everything the class does to the outside world
    (environment lookups, random identifiers, model calls, printing and
    sleeping) runs in a small state-and-exception monad over a [World].
    The collection is named, not owned: [Chroma(collection_name="ref-rag")]
    opens the one collection of that name in the process, so the world
    keeps it and every loader built in the process sees it. *)

From stdpp Require Import gmap strings list sorting pretty.

Local Open Scope string_scope.
Local Open Scope list_scope.
Local Open Scope nat_scope.

(** ** Values *)

(** An element of [chunk.metadata.orig_elements]: the text of
    [str(type(el))] and [el.metadata.image_base64]. *)
Record Element := mkElement {
  el_type_str : string;
  image_base64 : string
}.

(** A chunk returned by [partition_pdf]: [str(type(chunk))], [str(chunk)]
    (what the f-string of the prompt interpolates) and
    [chunk.metadata.orig_elements]. *)
Record Chunk := mkChunk {
  type_str : string;
  text : string;
  orig_elements : list Element
}.

(** What [docDB] holds: chunk objects for texts and tables, base64 strings
    for images. *)
Inductive Stored :=
  | StoredChunk (c : Chunk)
  | StoredImage (b64 : string).

(** [Document(page_content=..., metadata={...})]. *)
Record Document := mkDocument {
  page_content : string;
  metadata : gmap string string
}.

(** The attributes of a [PDFLoader] object.  [vDB] is the collection of the
    Chroma store as the object sees it through its handle, in insertion
    order; [self.retriever.vectorstore] and [self.retriever.docstore] are
    aliases of [vDB] and [docDB], so one field each stands for both
    names. *)
Record PDFLoader := mkPDFLoader {
  pdf_path : string;
  chunks : list Chunk;
  texts : list Chunk;
  tables : list Chunk;
  images : list string;
  text_summaries : list string;
  table_summaries : list string;
  image_summaries : list string;
  vDB : list Document;
  docDB : gmap string Stored;
  id_key : string
}.

(** The object as [__init__] receives it: no attribute assigned yet. *)
Definition fresh_object : PDFLoader :=
  mkPDFLoader "" [] [] [] [] [] [] [] [] ∅ "".

(** ** The world *)

Inductive Exception :=
  | ValueError (msg : string)
  | IndexError
  | DanglingIdentifierError (id : string).

Inductive Event :=
  | EvPartition (filename : string)
  | EvPrint (line : string)
  | EvSleep (millis : nat)
  | EvInvokeText (prompt : string)
  | EvInvokeVision (instruction url : string).

(** [environ] is the process environment after [load_dotenv()];
    [uuid_draws] and [llm_calls] count the identifiers drawn and the model
    calls made so far; [events] is the chronological trace; [collection]
    is the Chroma collection named ["ref-rag"], which belongs to the process
    and outlives the objects that open it; [self] is the object under
    construction or in use. *)
Record World := mkWorld {
  environ : gmap string string;
  uuid_draws : nat;
  llm_calls : nat;
  events : list Event;
  collection : list Document;
  self : PDFLoader
}.

Inductive Outcome (A : Type) :=
  | Ok (a : A)
  | Raise (e : Exception).
Arguments Ok {A} a.
Arguments Raise {A} e.

Definition M (A : Type) : Type := World → Outcome A * World.

#[global] Instance M_ret : MRet M := λ A a w, (Ok a, w).
#[global] Instance M_bind : MBind M := λ A B f m w,
  match m w with
  | (Ok a, w') => f a w'
  | (Raise e, w') => (Raise e, w')
  end.

Definition raise {A} (e : Exception) : M A := λ w, (Raise e, w).

Definition get_self : M PDFLoader := λ w, (Ok (self w), w).

Definition modify_self (f : PDFLoader → PDFLoader) : M unit := λ w,
  (Ok tt,
   mkWorld (environ w) (uuid_draws w) (llm_calls w) (events w) (collection w)
     (f (self w))).

Definition emit (e : Event) : M unit := λ w,
  (Ok tt,
   mkWorld (environ w) (uuid_draws w) (llm_calls w) (events w ++ [e])
     (collection w) (self w)).

Definition print (line : string) : M unit := emit (EvPrint line).

(** [time.sleep(0.5)], the duration in milliseconds. *)
Definition sleep (millis : nat) : M unit := emit (EvSleep millis).

(** [os.getenv]. *)
Definition getenv (name : string) : M (option string) := λ w,
  (Ok (environ w !! name), w).

(** Python's [not v] for a value that is [None] or a string. *)
Definition py_not (v : option string) : bool :=
  match v with
  | None => true
  | Some s => bool_decide (s = "")
  end.

(** [for x in l: body], threading the local variables the body rebinds. *)
Fixpoint for_each {A S : Type} (l : list A) (body : A → S → M S) (s : S) : M S :=
  match l with
  | [] => mret s
  | x :: l' => s' ← body x s; for_each l' body s'
  end.

(** [needle in s] on strings. *)
Fixpoint contains (needle s : string) : bool :=
  String.prefix needle s ||
  match s with
  | EmptyString => false
  | String _ s' => contains needle s'
  end.

(** [enumerate]. *)
Definition enumerate {A : Type} (l : list A) : list (nat * A) :=
  zip (seq 0 (length l)) l.

(** [ids[i]], raising [IndexError] out of range. *)
Definition subscript (ids : list string) (i : nat) : M string :=
  match ids !! i with
  | Some id => mret id
  | None => raise IndexError
  end.

(** ** Attribute assignments *)

Definition set_pdf_path (v : string) (o : PDFLoader) : PDFLoader :=
  mkPDFLoader v (chunks o) (texts o) (tables o) (images o) (text_summaries o)
    (table_summaries o) (image_summaries o) (vDB o) (docDB o) (id_key o).
Definition set_chunks (v : list Chunk) (o : PDFLoader) : PDFLoader :=
  mkPDFLoader (pdf_path o) v (texts o) (tables o) (images o) (text_summaries o)
    (table_summaries o) (image_summaries o) (vDB o) (docDB o) (id_key o).
Definition set_texts (v : list Chunk) (o : PDFLoader) : PDFLoader :=
  mkPDFLoader (pdf_path o) (chunks o) v (tables o) (images o) (text_summaries o)
    (table_summaries o) (image_summaries o) (vDB o) (docDB o) (id_key o).
Definition set_tables (v : list Chunk) (o : PDFLoader) : PDFLoader :=
  mkPDFLoader (pdf_path o) (chunks o) (texts o) v (images o) (text_summaries o)
    (table_summaries o) (image_summaries o) (vDB o) (docDB o) (id_key o).
Definition set_images (v : list string) (o : PDFLoader) : PDFLoader :=
  mkPDFLoader (pdf_path o) (chunks o) (texts o) (tables o) v (text_summaries o)
    (table_summaries o) (image_summaries o) (vDB o) (docDB o) (id_key o).
Definition set_text_summaries (v : list string) (o : PDFLoader) : PDFLoader :=
  mkPDFLoader (pdf_path o) (chunks o) (texts o) (tables o) (images o) v
    (table_summaries o) (image_summaries o) (vDB o) (docDB o) (id_key o).
Definition set_table_summaries (v : list string) (o : PDFLoader) : PDFLoader :=
  mkPDFLoader (pdf_path o) (chunks o) (texts o) (tables o) (images o) (text_summaries o)
    v (image_summaries o) (vDB o) (docDB o) (id_key o).
Definition set_image_summaries (v : list string) (o : PDFLoader) : PDFLoader :=
  mkPDFLoader (pdf_path o) (chunks o) (texts o) (tables o) (images o) (text_summaries o)
    (table_summaries o) v (vDB o) (docDB o) (id_key o).
Definition set_vDB (v : list Document) (o : PDFLoader) : PDFLoader :=
  mkPDFLoader (pdf_path o) (chunks o) (texts o) (tables o) (images o) (text_summaries o)
    (table_summaries o) (image_summaries o) v (docDB o) (id_key o).
Definition set_docDB (v : gmap string Stored) (o : PDFLoader) : PDFLoader :=
  mkPDFLoader (pdf_path o) (chunks o) (texts o) (tables o) (images o) (text_summaries o)
    (table_summaries o) (image_summaries o) (vDB o) v (id_key o).
Definition set_id_key (v : string) (o : PDFLoader) : PDFLoader :=
  mkPDFLoader (pdf_path o) (chunks o) (texts o) (tables o) (images o) (text_summaries o)
    (table_summaries o) (image_summaries o) (vDB o) (docDB o) v.

(** ** The prompt of [create_summary] *)

Definition nl : string := String (Ascii.ascii_of_nat 10) EmptyString.
Definition dquote : string := String (Ascii.ascii_of_nat 34) EmptyString.
Definition indent : string := "            ".

(** The triple-quoted f-string, with [element] interpolated. *)
Definition summary_prompt (element : string) : string :=
  nl +:+ indent +:+ "You are an assistant tasked with summarizing tables and text."
  +:+ nl +:+ indent +:+ "Give a concise summary of the tables or text."
  +:+ nl
  +:+ nl +:+ indent +:+ "Respond with only summary, no additional comment."
  +:+ nl +:+ indent +:+ "Do not start your message by saying " +:+ dquote
      +:+ "Here is a summary" +:+ dquote +:+ " or anything like that."
  +:+ nl +:+ indent +:+ "Just provide the summary as it is."
  +:+ nl
  +:+ nl +:+ indent +:+ "Table or text chunk: " +:+ element
  +:+ nl +:+ indent.

Definition image_instruction : string := "describe the image in detail".
Definition image_url (element : string) : string :=
  "data:image/jpeg;base64," +:+ element.

(** ** The class *)

Section PDFLoader.

(** The collaborators.  [partition_pdf] is the partitioner with the
    keyword arguments of [__init__] fixed; [text_llm n prompt] and
    [vision_llm n instruction url] are the [content] of the reply to the
    call made when [n] calls came before it, so two calls with one prompt
    may answer differently; [uuid4 n] is [str(uuid.uuid4())] at the
    [n]-th draw.  The collaborators are taken to return: a call of theirs
    that raises would end the constructor with that exception, and the
    source has no handler for it.  The one refusal the class runs into by
    itself is that of the vector store, which rejects an empty batch with
    a [ValueError]; [empty_batch_error] is the message of that error. *)
Variable partition_pdf : string → list Chunk.
Variable text_llm : nat → string → string.
Variable vision_llm : nat → string → string → string.
Variable uuid4 : nat → string.
Variable empty_batch_error : string.

Definition call_partition_pdf (filename : string) : M (list Chunk) :=
  emit (EvPartition filename);;
  mret (partition_pdf filename).

(** [self.text_llm.invoke([HumanMessage(prompt_text)]).content]. *)
Definition text_llm_invoke (prompt_text : string) : M string := λ w,
  (Ok (text_llm (llm_calls w) prompt_text),
   mkWorld (environ w) (uuid_draws w) (S (llm_calls w))
     (events w ++ [EvInvokeText prompt_text]) (collection w) (self w)).

(** [self.vision_llm.invoke([prompt_text]).content]. *)
Definition vision_llm_invoke (instruction url : string) : M string := λ w,
  (Ok (vision_llm (llm_calls w) instruction url),
   mkWorld (environ w) (uuid_draws w) (S (llm_calls w))
     (events w ++ [EvInvokeVision instruction url]) (collection w) (self w)).

(** [str(uuid.uuid4())]. *)
Definition uuid4_str : M string := λ w,
  (Ok (uuid4 (uuid_draws w)),
   mkWorld (environ w) (S (uuid_draws w)) (llm_calls w) (events w)
     (collection w) (self w)).

(** [[str(uuid.uuid4()) for _ in l]]. *)
Definition new_ids {A : Type} (l : list A) : M (list string) :=
  mapM (λ _, uuid4_str) l.

(** [[Document(page_content=summary, metadata={self.id_key: ids[i]})
      for i, summary in enumerate(summaries)]]. *)
Definition make_documents (key : string) (summaries ids : list string)
    : M (list Document) :=
  mapM (λ p : nat * string,
          id ← subscript ids p.1;
          mret (mkDocument p.2 {[ key := id ]}))
       (enumerate summaries).

(** [Chroma(collection_name="ref-rag", embedding_function=self.embedding)]:
    neither a client nor a directory is given, so the name designates one
    collection for the whole process, created by the first call and found
    again, with what it holds, by every later one. *)
Definition Chroma : M (list Document) := λ w, (Ok (collection w), w).

(** [self.retriever.vectorstore.add_documents(docs)]: the store refuses an
    empty batch with a [ValueError]; the documents of any other batch join
    the collection in the order given, and the object sees them there. *)
Definition add_documents (docs : list Document) : M unit :=
  match docs with
  | [] => raise (ValueError empty_batch_error)
  | _ :: _ => λ w,
      (Ok tt,
       mkWorld (environ w) (uuid_draws w) (llm_calls w) (events w)
         (collection w ++ docs) (set_vDB (vDB (self w) ++ docs) (self w)))
  end.

(** [self.retriever.docstore.mset(pairs)]: [InMemoryStore] assigns
    [store[key] = value] pair after pair. *)
Definition mset (pairs : list (string * Stored)) : M unit :=
  modify_self (λ o,
    set_docDB (foldl (λ store kv, <[ kv.1 := kv.2 ]> store) (docDB o) pairs) o).

Definition get_text_tables : M (list Chunk * list Chunk) :=
  o ← get_self;
  let '(tables, texts) :=
    foldl (λ (acc : list Chunk * list Chunk) chunk,
             let '(tables, texts) := acc in
             let tables :=
               if contains "Table" (type_str chunk)
               then tables ++ [chunk] else tables in
             let texts :=
               if contains "CompositeElement" (type_str chunk)
               then texts ++ [chunk] else texts in
             (tables, texts))
          ([], []) (chunks o) in
  mret (texts, tables).

Definition get_imagesb64 : M (list string) :=
  o ← get_self;
  mret (foldl (λ (image_b64 : list string) chunk,
                 if contains "CompositeElement" (type_str chunk)
                 then foldl (λ (image_b64 : list string) el,
                               if contains "Image" (el_type_str el)
                               then image_b64 ++ [image_base64 el]
                               else image_b64)
                            image_b64 (orig_elements chunk)
                 else image_b64)
              [] (chunks o)).

Definition create_summary : M (list string * list string) :=
  o ← get_self;
  print ("Running Summary for " +:+ pretty (length (texts o)) +:+ " texts.");;
  '(count, text_summaries) ←
    for_each (texts o)
      (λ element (st : nat * list string),
         let '(count, text_summaries) := st in
         let prompt_text := summary_prompt (text element) in
         let count := count + 1 in
         print ("API Usage: " +:+ pretty count);;
         (if bool_decide (count `mod` 10 = 0)
          then print "Sleeping..";; sleep 500
          else mret tt);;
         result ← text_llm_invoke prompt_text;
         mret (count, text_summaries ++ [result]))
      (0, []);
  '(count, table_summaries) ←
    for_each (tables o)
      (λ element (st : nat * list string),
         let '(count, table_summaries) := st in
         let prompt_text := summary_prompt (text element) in
         let count := count + 1 in
         print ("API Usage: " +:+ pretty count);;
         result ← text_llm_invoke prompt_text;
         mret (count, table_summaries ++ [result]))
      (count, []);
  mret (text_summaries, table_summaries).

Definition create_img_summary : M (list string) :=
  o ← get_self;
  print ("Running Summary for " +:+ pretty (length (images o)) +:+ " Images.");;
  for_each (images o)
    (λ element (img_summaries : list string),
       result ← vision_llm_invoke image_instruction (image_url element);
       mret (img_summaries ++ [result]))
    [].

Definition bind_data : M unit :=
  o ← get_self;
  doc_ids ← new_ids (texts o);
  summary_texts ← make_documents (id_key o) (text_summaries o) doc_ids;
  add_documents summary_texts;;
  mset (zip doc_ids (StoredChunk <$> texts o));;
  (if bool_decide (tables o ≠ [])
   then
     table_ids ← new_ids (tables o);
     summary_tables ← make_documents (id_key o) (table_summaries o) table_ids;
     add_documents summary_tables;;
     mset (zip table_ids (StoredChunk <$> tables o))
   else mret tt);;
  img_ids ← new_ids (images o);
  summary_imgs ← make_documents (id_key o) (image_summaries o) img_ids;
  add_documents summary_imgs;;
  mset (zip img_ids (StoredImage <$> images o)).

(** The clients [ChatTogether] and [GoogleGenerativeAIEmbeddings] are
    only configured here; [InMemoryStore()] starts empty, and [Chroma(...)]
    opens the collection of the process. *)
Definition __init__ (path : string) : M unit :=
  modify_self (set_pdf_path path);;
  together_api_key ← getenv "TOGETHER_API_KEY";
  google_api_key ← getenv "GOOGLE_API_KEY";
  (if py_not together_api_key
   then raise (ValueError "TOGETHER_API_KEY not found in environment variables")
   else mret tt);;
  (if py_not google_api_key
   then raise (ValueError "GOOGLE_API_KEY not found in environment variables")
   else mret tt);;
  chunks ← call_partition_pdf path;
  modify_self (set_chunks chunks);;
  '(texts, tables) ← get_text_tables;
  modify_self (set_texts texts);;
  modify_self (set_tables tables);;
  images ← get_imagesb64;
  modify_self (set_images images);;
  '(text_summaries, table_summaries) ← create_summary;
  modify_self (set_text_summaries text_summaries);;
  modify_self (set_table_summaries table_summaries);;
  image_summaries ← create_img_summary;
  modify_self (set_image_summaries image_summaries);;
  vDB ← Chroma;
  modify_self (set_vDB vDB);;
  modify_self (set_docDB ∅);;
  modify_self (set_id_key "doc_id");;
  bind_data.

(** The expression [PDFLoader(path)]: a new object, then [__init__]. *)
Definition new_PDFLoader (path : string) : M unit :=
  modify_self (λ _, fresh_object);;
  __init__ path.

(** [n] further calls of [bind_data] on the object. *)
Fixpoint rebind (n : nat) : M unit :=
  match n with
  | 0 => mret tt
  | S n' => bind_data;; rebind n'
  end.

(** ** Search *)

(** The source builds a [MultiVectorRetriever] over the two stores and
    leaves searching to it; [distance query summary] stands for the
    metric of the embedding. *)
Variable distance : string → string → nat.

Definition closer (query : string) (d1 d2 : Document) : Prop :=
  distance query (page_content d1) ≤ distance query (page_content d2).

#[global] Instance closer_dec query d1 d2 : Decision (closer query d1 d2).
Proof. unfold closer. apply _. Defined.

(** The [top_k] documents of the collection closest to the query, closest
    first. *)
Definition nearestDocuments (query : string) (top_k : nat)
    (collection : list Document) : list Document :=
  take top_k (merge_sort (closer query) collection).

(** Modelled from the spec: the nearest-neighbour operation of the
    similarity-search collaborator, which is not in the source: the
    identifiers of the [top_k] entries of the summary collection closest to
    the query, closest first. *)
Definition nearestNeighbors (key query : string) (top_k : nat)
    (collection : list Document) : list string :=
  omap (λ d, metadata d !! key) (nearestDocuments query top_k collection).

(** Modelled from the spec: an identifier returned by the similarity search
    is resolved against the content store, and an identifier without an
    entry there is a [DanglingIdentifierError]. *)
Definition resolve (o : PDFLoader) (id : string) : M (string * Stored) :=
  match docDB o !! id with
  | Some content => mret (id, content)
  | None => raise (DanglingIdentifierError id)
  end.

(** Modelled from the spec: [search(query, top_k)], which the source does
    not define. *)
Definition search (query : string) (top_k : nat) : M (list (string * Stored)) :=
  o ← get_self;
  mapM (resolve o) (nearestNeighbors (id_key o) query top_k (vDB o)).

End PDFLoader.

(** ** Specification vocabulary *)

(** The tests [get_text_tables] and [get_imagesb64] make on type names. *)
Definition is_table (c : Chunk) : bool := contains "Table" (type_str c).
Definition is_text (c : Chunk) : bool := contains "CompositeElement" (type_str c).
Definition is_image (el : Element) : bool := contains "Image" (el_type_str el).

(** The payloads of the images among the sub-elements of a chunk. *)
Definition embedded_images (c : Chunk) : list string :=
  image_base64 <$> filter (λ el, is_image el) (orig_elements c).

(** The image payloads [get_imagesb64] collects from a chunk list. *)
Definition images_of (l : list Chunk) : list string :=
  concat ((λ c, if is_text c then embedded_images c else []) <$> l).

Definition documents (key : string) (summaries ids : list string) : list Document :=
  zip_with (λ summary id, mkDocument summary {[ key := id ]}) summaries ids.

Definition store_all (store : gmap string Stored) (pairs : list (string * Stored))
    : gmap string Stored :=
  foldl (λ store kv, <[ kv.1 := kv.2 ]> store) store pairs.

(** The identifiers the summary collection carries, in insertion order. *)
Definition doc_ids_of (o : PDFLoader) : list string :=
  omap (λ d, metadata d !! id_key o) (vDB o).

(** What one call of [bind_data] indexes: summaries and contents, texts
    first, then tables, then images. *)
Definition summaries_of (o : PDFLoader) : list string :=
  text_summaries o ++ table_summaries o ++ image_summaries o.
Definition contents_of (o : PDFLoader) : list Stored :=
  (StoredChunk <$> texts o) ++ (StoredChunk <$> tables o) ++ (StoredImage <$> images o).

(** Every content has its summary. *)
Definition aligned (o : PDFLoader) : Prop :=
  length (text_summaries o) = length (texts o) ∧
  length (table_summaries o) = length (tables o) ∧
  length (image_summaries o) = length (images o).

(** There is a text and an image to index: on an object whose contents
    have their summaries, no batch that [bind_data] hands to the vector
    store is empty. *)
Definition stocked (o : PDFLoader) : Prop := texts o ≠ [] ∧ images o ≠ [].

Definition is_call (e : Event) : bool :=
  match e with
  | EvInvokeText _ | EvInvokeVision _ _ => true
  | _ => false
  end.

Definition is_sleep (e : Event) : bool :=
  match e with
  | EvSleep _ => true
  | _ => false
  end.

(** The replies of the text model to the prompts of [l], the first call
    being call number [calls]. *)
Fixpoint text_replies (text_llm : nat → string → string) (calls : nat)
    (l : list Chunk) : list string :=
  match l with
  | [] => []
  | c :: l' => text_llm calls (summary_prompt (text c)) :: text_replies text_llm (S calls) l'
  end.

Fixpoint image_replies (vision_llm : nat → string → string → string) (calls : nat)
    (l : list string) : list string :=
  match l with
  | [] => []
  | b :: l' =>
      vision_llm calls image_instruction (image_url b)
      :: image_replies vision_llm (S calls) l'
  end.

(** The trace of the first loop of [create_summary] when [count] calls
    were counted before it. *)
Fixpoint text_loop_events (count : nat) (l : list Chunk) : list Event :=
  match l with
  | [] => []
  | c :: l' =>
      EvPrint ("API Usage: " +:+ pretty (count + 1))
      :: (if bool_decide ((count + 1) `mod` 10 = 0)
          then [EvPrint "Sleeping.."; EvSleep 500] else [])
      ++ EvInvokeText (summary_prompt (text c))
      :: text_loop_events (count + 1) l'
  end.

(** The trace of its second loop. *)
Fixpoint table_loop_events (count : nat) (l : list Chunk) : list Event :=
  match l with
  | [] => []
  | c :: l' =>
      EvPrint ("API Usage: " +:+ pretty (count + 1))
      :: EvInvokeText (summary_prompt (text c))
      :: table_loop_events (count + 1) l'
  end.

(** The trace of the loop of [create_img_summary]. *)
Definition image_loop_events (l : list string) : list Event :=
  (λ b, EvInvokeVision image_instruction (image_url b)) <$> l.

(** Both keys are set to non-empty strings. *)
Definition configured (w : World) : Prop :=
  py_not (environ w !! "TOGETHER_API_KEY") = false ∧
  py_not (environ w !! "GOOGLE_API_KEY") = false.

(** The message of the [ValueError] that [__init__] raises when
    [configured] fails. *)
Definition missing_key_message (w : World) : string :=
  if py_not (environ w !! "TOGETHER_API_KEY")
  then "TOGETHER_API_KEY not found in environment variables"
  else "GOOGLE_API_KEY not found in environment variables".

Section Vocabulary.

Variable partition_pdf : string → list Chunk.
Variable text_llm : nat → string → string.
Variable vision_llm : nat → string → string → string.
Variable uuid4 : nat → string.
Variable empty_batch_error : string.

(** The identifiers of the next [n] draws. *)
Definition next_ids (w : World) (n : nat) : list string :=
  uuid4 <$> seq (uuid_draws w) n.

(** The documents and the pairs one call of [bind_data] adds in [w]. *)
Definition new_documents (w : World) : list Document :=
  documents (id_key (self w)) (summaries_of (self w))
    (next_ids w (length (contents_of (self w)))).
Definition new_pairs (w : World) : list (string * Stored) :=
  zip (next_ids w (length (contents_of (self w)))) (contents_of (self w)).

(** The world a call of [bind_data] that returns leaves. *)
Definition bound (w : World) : World :=
  mkWorld (environ w) (uuid_draws w + length (contents_of (self w)))
    (llm_calls w) (events w) (collection w ++ new_documents w)
    (set_docDB (store_all (docDB (self w)) (new_pairs w))
       (set_vDB (vDB (self w) ++ new_documents w) (self w))).

(** The world in which [__init__] calls [bind_data]. *)
Definition prepared (path : string) (w0 : World) : World :=
  let cs := partition_pdf path in
  let ts := filter (λ c, is_text c) cs in
  let bs := filter (λ c, is_table c) cs in
  let imgs := images_of cs in
  let c0 := llm_calls w0 in
  mkWorld (environ w0) (uuid_draws w0)
    (c0 + length ts + length bs + length imgs)
    (events w0
     ++ [EvPartition path]
     ++ [EvPrint ("Running Summary for " +:+ pretty (length ts) +:+ " texts.")]
     ++ text_loop_events 0 ts
     ++ table_loop_events (length ts) bs
     ++ [EvPrint ("Running Summary for " +:+ pretty (length imgs) +:+ " Images.")]
     ++ image_loop_events imgs)
    (collection w0)
    (mkPDFLoader path cs ts bs imgs
       (text_replies text_llm c0 ts)
       (text_replies text_llm (c0 + length ts) bs)
       (image_replies vision_llm (c0 + length ts + length bs) imgs)
       (collection w0) ∅ "doc_id").

(** The stores are linked: every document of the summary collection
    carries one identifier under [id_key], drawn earlier, no identifier
    occurs twice, and the identifiers are the keys of the document
    store.  A loader that opened an empty collection has linked stores;
    one that found documents in the collection has not. *)
Record linked (w : World) : Prop := {
  linked_aligned : aligned (self w);
  linked_meta :
    Forall (λ d, ∃ id, metadata d = {[ id_key (self w) := id ]}) (vDB (self w));
  linked_drawn :
    Forall (λ id, ∃ i, i < uuid_draws w ∧ id = uuid4 i) (doc_ids_of (self w));
  linked_nodup : NoDup (doc_ids_of (self w));
  linked_dom : dom (docDB (self w)) = list_to_set (doc_ids_of (self w))
}.

(** The worlds a program reaches by constructing a loader, whatever the
    collection of the process holds by then, and calling [bind_data] on
    it any number of times. *)
Inductive reachable : World → Prop :=
  | reachable_new path w0 w :
      new_PDFLoader partition_pdf text_llm vision_llm uuid4 empty_batch_error path w0
      = (Ok tt, w) →
      reachable w
  | reachable_bind w w' :
      reachable w → bind_data uuid4 empty_batch_error w = (Ok tt, w') → reachable w'.

End Vocabulary.

(** The pauses and calls of the first loop of [create_summary], in order:
    the pause comes right before each call whose number is a multiple of
    ten. *)
Definition text_schedule (l : list Chunk) : list Event :=
  concat (imap (λ i c,
                  (if bool_decide ((i + 1) `mod` 10 = 0) then [EvSleep 500] else [])
                  ++ [EvInvokeText (summary_prompt (text c))]) l).

Definition is_timing (e : Event) : bool := is_call e || is_sleep e.

(** A trace pauses after every ten calls when no eleventh call follows ten
    calls without a pause between; [since] counts the calls made since the
    last pause. *)
Fixpoint paused_every_ten (since : nat) (trace : list Event) : bool :=
  match trace with
  | [] => true
  | EvSleep _ :: trace' => paused_every_ten 0 trace'
  | EvInvokeText _ :: trace' | EvInvokeVision _ _ :: trace' =>
      if decide (since < 10) then paused_every_ten (S since) trace' else false
  | _ :: trace' => paused_every_ten since trace'
  end.

(** ** A small document to run the class on *)

Module Fixture.

Definition composite_type : string :=
  "<class 'unstructured.documents.elements.CompositeElement'>".
Definition table_type : string :=
  "<class 'unstructured.documents.elements.Table'>".
Definition image_type : string :=
  "<class 'unstructured.documents.elements.Image'>".
Definition title_type : string :=
  "<class 'unstructured.documents.elements.Title'>".
Definition narrative_type : string :=
  "<class 'unstructured.documents.elements.NarrativeText'>".

Definition revenue : Chunk :=
  mkChunk composite_type "Revenue grew 10%"
    [mkElement narrative_type ""; mkElement image_type "iVBORw0KGgo="].
Definition headcount : Chunk :=
  mkChunk composite_type "Headcount increased by 50" [mkElement narrative_type ""].
Definition quarter : Chunk := mkChunk table_type "Q1 4 2 Q2 5 3" [].
Definition heading : Chunk := mkChunk title_type "Annual report" [].

Definition report : list Chunk := [revenue; heading; quarter; headcount].

Definition partition_pdf (filename : string) : list Chunk := report.
Definition text_llm (n : nat) (prompt : string) : string :=
  "text summary " +:+ pretty n.
Definition vision_llm (n : nat) (instruction url : string) : string :=
  "image summary " +:+ pretty n.
Definition uuid4 (n : nat) : string := pretty n.

(** The message with which the vector store refuses an empty batch: its
    wording is the library's, and nothing in the class reads it. *)
Definition empty_batch_error : string :=
  "Expected IDs to be a non-empty list, got 0 IDs".

(** A summarizer that answers with the empty string. *)
Definition silent_llm (n : nat) (prompt : string) : string := "".

(** A composite chunk with eleven figures. *)
Definition gallery : Chunk :=
  mkChunk composite_type "Figures 1 to 11"
    (replicate 11 (mkElement image_type "iVBORw0KGgo=")).

(** A partitioner that finds the gallery and nothing else. *)
Definition partition_gallery (filename : string) : list Chunk := [gallery].

(** A partitioner that finds nothing. *)
Definition partition_blank (filename : string) : list Chunk := [].

(** A partitioner that finds a text and a table, and no image. *)
Definition partition_plain (filename : string) : list Chunk := [headcount; quarter].

(** The partition of the report without its heading. *)
Definition partition_without_heading (filename : string) : list Chunk :=
  [revenue; quarter; headcount].

(** A partitioner that finds twenty composite chunks, the first of them
    with an image, and nothing else. *)
Definition partition_texts (filename : string) : list Chunk :=
  revenue :: replicate 19 headcount.

(** A partitioner that finds the two texts of the report and nothing
    else. *)
Definition partition_two_texts (filename : string) : list Chunk :=
  [revenue; headcount].

(** A summarizer that returns its prompt unchanged. *)
Definition echo_llm (n : nat) (prompt : string) : string := prompt.

(** A summary is at distance 0 from a query it contains and at distance
    1 from any other. *)
Definition keyword_distance (query summary : string) : nat :=
  if contains query summary then 0 else 1.

(** The distance of a summary from any query: its length. *)
Definition distance (query summary : string) : nat := String.length summary.

Definition env : gmap string string :=
  {[ "TOGETHER_API_KEY" := "tgp_v1_key"; "GOOGLE_API_KEY" := "AIza_key" ]}.

Definition start : World := mkWorld env 0 0 [] [] fresh_object.

(** [start] without the Google key. *)
Definition start_without_google : World :=
  mkWorld {[ "TOGETHER_API_KEY" := "tgp_v1_key" ]} 0 0 [] [] fresh_object.

(** The world after [PDFLoader("report.pdf")]. *)
Definition loaded : World :=
  snd (new_PDFLoader partition_pdf text_llm vision_llm uuid4 empty_batch_error
         "report.pdf" start).

(** The world after a second [PDFLoader("report.pdf")] in the same
    process. *)
Definition loaded_again : World :=
  snd (new_PDFLoader partition_pdf text_llm vision_llm uuid4 empty_batch_error
         "report.pdf" loaded).

End Fixture.

(** ** The getters *)

Definition getchunks : M (list Chunk) :=
  o ← get_self;
  mret (chunks o).

Definition gettexts : M (list Chunk) :=
  o ← get_self;
  mret (texts o).

(** ** [bind_data] batch by batch *)

(** The world with [f] applied to the object. *)
Definition with_self (f : PDFLoader → PDFLoader) (w : World) : World :=
  mkWorld (environ w) (uuid_draws w) (llm_calls w) (events w) (collection w)
    (f (self w)).

Section Batches.

Variable uuid4 : nat → string.

(** The world after one batch of [bind_data] that went through: an
    identifier is drawn for every content, the summaries are filed under
    the identifiers as far as both lists go, and every content is stored
    under its identifier. *)
Definition index_batch (summaries : list string) (contents : list Stored)
    (w : World) : World :=
  mkWorld (environ w) (uuid_draws w + length contents) (llm_calls w) (events w)
    (collection w
     ++ documents (id_key (self w)) summaries (next_ids uuid4 w (length contents)))
    (set_docDB
       (store_all (docDB (self w))
          (zip (next_ids uuid4 w (length contents)) contents))
       (set_vDB
          (vDB (self w)
           ++ documents (id_key (self w)) summaries
                (next_ids uuid4 w (length contents)))
          (self w))).

Definition bound_texts (w : World) : World :=
  index_batch (text_summaries (self w)) (StoredChunk <$> texts (self w)) w.

Definition bound_tables (w : World) : World :=
  index_batch (table_summaries (self w)) (StoredChunk <$> tables (self w))
    (bound_texts w).

Definition bound_images (w : World) : World :=
  index_batch (image_summaries (self w)) (StoredImage <$> images (self w))
    (bound_tables w).

End Batches.

(** Worlds whose object was tampered with after construction. *)
Module Tampered.

(** One text summary too many. *)
Definition surplus_text : World :=
  with_self (λ o, set_text_summaries (text_summaries o ++ ["stray"]) o) Fixture.loaded.

(** One table summary too many. *)
Definition surplus_table : World :=
  with_self (λ o, set_table_summaries (table_summaries o ++ ["stray"]) o) Fixture.loaded.

(** No text summary at all. *)
Definition no_text_summary : World :=
  with_self (set_text_summaries []) Fixture.loaded.

(** One text summary for the two texts. *)
Definition one_text_summary : World :=
  with_self (set_text_summaries ["text summary 0"]) Fixture.loaded.

(** No image left, its summary still there. *)
Definition no_image : World :=
  with_self (set_images []) Fixture.loaded.

(** No table left, its summary still there. *)
Definition no_table : World :=
  with_self (set_tables []) Fixture.loaded.

End Tampered.

(** ** The monad *)

Lemma bind_Ok {A B} (m : M A) (f : A → M B) w a w' :
  m w = (Ok a, w') → (m ≫= f) w = f a w'.
Proof. intros H. unfold mbind, M_bind. by rewrite H. Qed.

Lemma bind_Raise {A B} (m : M A) (f : A → M B) w e w' :
  m w = (Raise e, w') → (m ≫= f) w = (Raise e, w').
Proof. intros H. unfold mbind, M_bind. by rewrite H. Qed.

Lemma bind_mret {A B} (a : A) (f : A → M B) w : (mret a ≫= f) w = f a w.
Proof. done. Qed.

Lemma bind_raise {A B} (e : Exception) (f : A → M B) w :
  (raise e ≫= f) w = (Raise e, w).
Proof. done. Qed.

Lemma bind_assoc {A B C} (m : M A) (f : A → M B) (g : B → M C) w :
  ((m ≫= f) ≫= g) w = (m ≫= λ a, f a ≫= g) w.
Proof. unfold mbind, M_bind. by destruct (m w) as [[a|e] w']. Qed.

Lemma bind_get_self {B} (f : PDFLoader → M B) w :
  (get_self ≫= f) w = f (self w) w.
Proof. done. Qed.

Lemma bind_modify_self {B} (g : PDFLoader → PDFLoader) (f : unit → M B) w :
  (modify_self g ≫= f) w
  = f tt (mkWorld (environ w) (uuid_draws w) (llm_calls w) (events w)
            (collection w) (g (self w))).
Proof. done. Qed.

Lemma bind_emit {B} (e : Event) (f : unit → M B) w :
  (emit e ≫= f) w
  = f tt (mkWorld (environ w) (uuid_draws w) (llm_calls w) (events w ++ [e])
            (collection w) (self w)).
Proof. done. Qed.

Lemma bind_getenv {B} (name : string) (f : option string → M B) w :
  (getenv name ≫= f) w = f (environ w !! name) w.
Proof. done. Qed.

(** Projections of explicit worlds and objects are reduced after every
    step of a run, so that the world stays a single record. *)
Ltac tidy :=
  cbn [environ uuid_draws llm_calls events collection self
       pdf_path chunks texts tables images text_summaries table_summaries
       image_summaries vDB docDB id_key
       set_pdf_path set_chunks set_texts set_tables set_images
       set_text_summaries set_table_summaries set_image_summaries
       set_vDB set_docDB set_id_key].

(** One step of a run whose first action is known by the equation [H]. *)
Tactic Notation "step" "by" tactic3(tac) :=
  erewrite bind_Ok; [|tac]; tidy.

(** Two runs agree when their results and the fields of their worlds do. *)
Ltac same_run :=
  repeat (progress (simpl; rewrite <- ?app_assoc));
  repeat match goal with
         | |- (_, _) = (_, _) => f_equal
         | |- Ok _ = Ok _ => f_equal
         | |- mkWorld _ _ _ _ _ _ = mkWorld _ _ _ _ _ _ => f_equal
         end;
  try done; try lia.

Lemma world_eta w :
  mkWorld (environ w) (uuid_draws w) (llm_calls w) (events w) (collection w) (self w) = w.
Proof. by destruct w. Qed.

(** ** The document store *)

Lemma store_all_snoc store pairs k v :
  store_all store (pairs ++ [(k, v)]) = <[ k := v ]> (store_all store pairs).
Proof. unfold store_all. by rewrite foldl_app. Qed.

Lemma store_all_app store l1 l2 :
  store_all store (l1 ++ l2) = store_all (store_all store l1) l2.
Proof. unfold store_all. by rewrite foldl_app. Qed.

Lemma store_all_dom store pairs :
  dom (store_all store pairs) = dom store ∪ list_to_set pairs.*1.
Proof.
  induction pairs as [|[k v] pairs IH] using rev_ind.
  - simpl. by rewrite (right_id_L ∅ (∪)).
  - rewrite store_all_snoc, dom_insert_L, IH, fmap_app, list_to_set_app_L.
    simpl. rewrite (right_id_L ∅ (∪)).
    rewrite (comm_L (∪) {[k]}). by rewrite (assoc_L (∪)).
Qed.

Lemma store_all_lookup_other store pairs k :
  k ∉ pairs.*1 → store_all store pairs !! k = store !! k.
Proof.
  induction pairs as [|[k' v] pairs IH] using rev_ind; [done|].
  rewrite fmap_app, not_elem_of_app. simpl. intros [Hk Hk'].
  rewrite store_all_snoc, lookup_insert_ne; [by apply IH|].
  intros ->. apply Hk'. by left.
Qed.

Lemma store_all_lookup store pairs k v :
  NoDup pairs.*1 → (k, v) ∈ pairs → store_all store pairs !! k = Some v.
Proof.
  induction pairs as [|[k' v'] pairs IH] using rev_ind.
  - intros _ H. by apply elem_of_nil in H.
  - rewrite fmap_app. simpl. intros Hnd Hin.
    apply NoDup_app in Hnd as (Hnd & Hfresh & _).
    rewrite store_all_snoc.
    apply elem_of_app in Hin as [Hin|Hin].
    + rewrite lookup_insert_ne; [by apply IH|].
      intros ->. apply (Hfresh k); [|by left].
      apply list_elem_of_fmap. by exists (k, v).
    + apply list_elem_of_singleton in Hin. inversion Hin; subst.
      by rewrite lookup_insert_eq.
Qed.

Lemma store_all_size store pairs :
  NoDup pairs.*1 → (∀ k, k ∈ pairs.*1 → store !! k = None) →
  size (store_all store pairs) = size store + length pairs.
Proof.
  induction pairs as [|[k v] pairs IH] using rev_ind.
  - intros _ _. simpl. lia.
  - rewrite fmap_app. simpl. intros Hnd Hfresh.
    apply NoDup_app in Hnd as (Hnd & Hdisj & _).
    rewrite store_all_snoc, map_size_insert_None.
    + rewrite IH, length_app; [simpl; lia|done|].
      intros k' Hk'. apply Hfresh, elem_of_app. by left.
    + rewrite store_all_lookup_other.
      * apply Hfresh, elem_of_app. right. by left.
      * intros Hin. apply (Hdisj k Hin). by left.
Qed.

Lemma store_all_subseteq store pairs :
  (∀ k, k ∈ pairs.*1 → store !! k = None) → store ⊆ store_all store pairs.
Proof.
  intros Hfresh. apply map_subseteq_spec. intros k v Hk.
  rewrite store_all_lookup_other; [done|].
  intros Hin. apply Hfresh in Hin. congruence.
Qed.

(** ** The operations, one by one *)

Section Operations.

Variable partition_pdf : string → list Chunk.
Variable text_llm : nat → string → string.
Variable vision_llm : nat → string → string → string.
Variable uuid4 : nat → string.
Variable empty_batch_error : string.

Lemma new_ids_spec {A} (l : list A) w :
  new_ids uuid4 l w =
    (Ok (uuid4 <$> seq (uuid_draws w) (length l)),
     mkWorld (environ w) (uuid_draws w + length l) (llm_calls w) (events w)
       (collection w) (self w)).
Proof.
  unfold new_ids. revert w. induction l as [|x l IH]; intros w; simpl.
  - unfold mret, M_ret. by rewrite Nat.add_0_r, world_eta.
  - unfold mbind, M_bind, uuid4_str at 1. rewrite IH. simpl.
    unfold mret, M_ret. do 3 f_equal. lia.
Qed.

Lemma make_documents_from key ids w (summaries : list string) k :
  k + length summaries ≤ length ids →
  mapM (λ p : nat * string,
          id ← subscript ids p.1; mret (mkDocument p.2 {[ key := id ]}))
       (zip (seq k (length summaries)) summaries) w
  = (Ok (documents key summaries (drop k ids)), w).
Proof.
  revert k. induction summaries as [|s summaries IH]; intros k Hlen; simpl in *.
  - by destruct (drop k ids).
  - destruct (lookup_lt_is_Some_2 ids k ltac:(lia)) as [id Hid].
    erewrite bind_Ok; [|erewrite bind_Ok; [done|]; unfold subscript; by rewrite Hid].
    erewrite bind_Ok; [|apply (IH (S k)); lia].
    by rewrite (drop_S _ _ _ Hid).
Qed.

Lemma make_documents_spec key summaries ids w :
  length summaries ≤ length ids →
  make_documents key summaries ids w = (Ok (documents key summaries ids), w).
Proof.
  intros Hlen. unfold make_documents, enumerate.
  by rewrite (make_documents_from key ids w summaries 0).
Qed.

(** More summaries than identifiers: [ids[i]] leaves the list. *)
Lemma make_documents_short key ids w (summaries : list string) k :
  k ≤ length ids → length ids < k + length summaries →
  fst (mapM (λ p : nat * string,
          id ← subscript ids p.1; mret (mkDocument p.2 {[ key := id ]}))
       (zip (seq k (length summaries)) summaries) w) = Raise IndexError.
Proof.
  revert k. induction summaries as [|s summaries IH]; intros k Hk Hlen; simpl in *.
  - lia.
  - destruct (ids !! k) as [id|] eqn:Hid.
    + apply lookup_lt_Some in Hid as Hk'.
      erewrite bind_Ok; [|erewrite bind_Ok; [done|]; unfold subscript; by rewrite Hid].
      specialize (IH (S k) ltac:(lia) ltac:(lia)).
      match goal with
      | |- context [(?m ≫= _) w] => destruct (m w) as [[r|e] w'] eqn:Hrest
      end; simpl in IH; [done|].
      erewrite bind_Raise; [|exact Hrest]. simpl. congruence.
    + erewrite bind_Raise; [done|].
      erewrite bind_Raise; [done|]. unfold subscript. by rewrite Hid.
Qed.

Lemma add_documents_spec docs w :
  docs ≠ [] →
  add_documents empty_batch_error docs w =
    (Ok tt,
     mkWorld (environ w) (uuid_draws w) (llm_calls w) (events w)
       (collection w ++ docs) (set_vDB (vDB (self w) ++ docs) (self w))).
Proof. by destruct docs. Qed.

(** The vector store refuses an empty batch. *)
Lemma add_documents_nil w :
  add_documents empty_batch_error [] w = (Raise (ValueError empty_batch_error), w).
Proof. done. Qed.

Lemma mset_spec pairs w :
  mset pairs w =
    (Ok tt,
     mkWorld (environ w) (uuid_draws w) (llm_calls w) (events w) (collection w)
       (set_docDB (store_all (docDB (self w)) pairs) (self w))).
Proof. done. Qed.

(** A summary and an identifier make a document. *)
Lemma documents_not_nil {A} key (summaries : list string) (items : list A) d :
  summaries ≠ [] → items ≠ [] →
  documents key summaries (uuid4 <$> seq d (length items)) ≠ [].
Proof. by destruct summaries, items. Qed.

(** [get_text_tables] keeps the composite chunks and the tables, each
    list in document order. *)
Lemma get_text_tables_fold (l : list Chunk) tables0 texts0 :
  foldl (λ (acc : list Chunk * list Chunk) chunk,
           let '(tables, texts) := acc in
           let tables :=
             if contains "Table" (type_str chunk)
             then tables ++ [chunk] else tables in
           let texts :=
             if contains "CompositeElement" (type_str chunk)
             then texts ++ [chunk] else texts in
           (tables, texts))
        (tables0, texts0) l
  = (tables0 ++ filter (λ c, is_table c) l, texts0 ++ filter (λ c, is_text c) l).
Proof.
  revert tables0 texts0. induction l as [|c l IH]; intros tables0 texts0; simpl.
  - by rewrite !app_nil_r.
  - rewrite IH. rewrite !filter_cons. unfold is_table, is_text.
    destruct (contains "Table" (type_str c)),
             (contains "CompositeElement" (type_str c)); simpl;
      by rewrite <- ?app_assoc.
Qed.

Lemma get_text_tables_spec w :
  get_text_tables w =
    (Ok (filter (λ c, is_text c) (chunks (self w)),
         filter (λ c, is_table c) (chunks (self w))), w).
Proof.
  unfold get_text_tables, mbind, M_bind, get_self.
  by rewrite get_text_tables_fold.
Qed.

Lemma get_imagesb64_inner (els : list Element) (acc : list string) :
  foldl (λ (image_b64 : list string) el,
           if contains "Image" (el_type_str el)
           then image_b64 ++ [image_base64 el] else image_b64) acc els
  = acc ++ (image_base64 <$> filter (λ el, is_image el) els).
Proof.
  revert acc. induction els as [|el els IH]; intros acc; simpl.
  - by rewrite app_nil_r.
  - rewrite IH, filter_cons. unfold is_image.
    destruct (contains "Image" (el_type_str el)); simpl;
      by rewrite <- ?app_assoc.
Qed.

Lemma get_imagesb64_fold (l : list Chunk) (acc : list string) :
  foldl (λ (image_b64 : list string) chunk,
           if contains "CompositeElement" (type_str chunk)
           then foldl (λ (image_b64 : list string) el,
                         if contains "Image" (el_type_str el)
                         then image_b64 ++ [image_base64 el]
                         else image_b64)
                      image_b64 (orig_elements chunk)
           else image_b64) acc l
  = acc ++ images_of l.
Proof.
  unfold images_of.
  revert acc. induction l as [|c l IH]; intros acc; simpl.
  - by rewrite app_nil_r.
  - rewrite IH. unfold is_text, embedded_images.
    destruct (contains "CompositeElement" (type_str c)); simpl; [|done].
    by rewrite get_imagesb64_inner, <- app_assoc.
Qed.

Lemma get_imagesb64_spec w :
  get_imagesb64 w = (Ok (images_of (chunks (self w))), w).
Proof.
  unfold get_imagesb64, mbind, M_bind, get_self.
  by rewrite get_imagesb64_fold.
Qed.

Lemma text_loop_spec (l : list Chunk) count acc w :
  for_each l
    (λ element (st : nat * list string),
       let '(count, text_summaries) := st in
       let prompt_text := summary_prompt (text element) in
       let count := count + 1 in
       print ("API Usage: " +:+ pretty count);;
       (if bool_decide (count `mod` 10 = 0)
        then print "Sleeping..";; sleep 500
        else mret tt);;
       result ← text_llm_invoke text_llm prompt_text;
       mret (count, text_summaries ++ [result]))
    (count, acc) w
  = (Ok (count + length l, acc ++ text_replies text_llm (llm_calls w) l),
     mkWorld (environ w) (uuid_draws w) (llm_calls w + length l)
       (events w ++ text_loop_events count l) (collection w) (self w)).
Proof.
  revert count acc w. induction l as [|c l IH]; intros count acc w.
  - simpl. unfold mret, M_ret.
    by rewrite Nat.add_0_r, Nat.add_0_r, !app_nil_r, world_eta.
  - cbn [for_each text_loop_events text_replies length].
    destruct (bool_decide ((count + 1) `mod` 10 = 0)).
    + erewrite bind_Ok;
        [|cbv beta iota zeta;
          unfold mbind, M_bind, mret, M_ret, print, sleep, emit, text_llm_invoke;
          cbv beta iota zeta; reflexivity].
      rewrite IH. same_run.
    + erewrite bind_Ok;
        [|cbv beta iota zeta;
          unfold mbind, M_bind, mret, M_ret, print, sleep, emit, text_llm_invoke;
          cbv beta iota zeta; reflexivity].
      rewrite IH. same_run.
Qed.

Lemma table_loop_spec (l : list Chunk) count acc w :
  for_each l
    (λ element (st : nat * list string),
       let '(count, table_summaries) := st in
       let prompt_text := summary_prompt (text element) in
       let count := count + 1 in
       print ("API Usage: " +:+ pretty count);;
       result ← text_llm_invoke text_llm prompt_text;
       mret (count, table_summaries ++ [result]))
    (count, acc) w
  = (Ok (count + length l, acc ++ text_replies text_llm (llm_calls w) l),
     mkWorld (environ w) (uuid_draws w) (llm_calls w + length l)
       (events w ++ table_loop_events count l) (collection w) (self w)).
Proof.
  revert count acc w. induction l as [|c l IH]; intros count acc w.
  - simpl. unfold mret, M_ret.
    by rewrite Nat.add_0_r, Nat.add_0_r, !app_nil_r, world_eta.
  - cbn [for_each table_loop_events text_replies length].
    erewrite bind_Ok;
      [|unfold mbind, M_bind, print, emit, text_llm_invoke; simpl; reflexivity].
    rewrite IH. same_run.
Qed.

Lemma image_loop_spec (l : list string) acc w :
  for_each l
    (λ element (img_summaries : list string),
       result ← vision_llm_invoke vision_llm image_instruction (image_url element);
       mret (img_summaries ++ [result]))
    acc w
  = (Ok (acc ++ image_replies vision_llm (llm_calls w) l),
     mkWorld (environ w) (uuid_draws w) (llm_calls w + length l)
       (events w ++ image_loop_events l) (collection w) (self w)).
Proof.
  unfold image_loop_events.
  revert acc w. induction l as [|b l IH]; intros acc w.
  - simpl. unfold mret, M_ret.
    by rewrite Nat.add_0_r, !app_nil_r, world_eta.
  - cbn [for_each image_replies length fmap list_fmap].
    erewrite bind_Ok;
      [|unfold mbind, M_bind, vision_llm_invoke; simpl; reflexivity].
    rewrite IH. same_run.
Qed.

Lemma create_summary_spec w :
  create_summary text_llm w =
    (Ok (text_replies text_llm (llm_calls w) (texts (self w)),
         text_replies text_llm (llm_calls w + length (texts (self w)))
           (tables (self w))),
     mkWorld (environ w) (uuid_draws w)
       (llm_calls w + length (texts (self w)) + length (tables (self w)))
       (events w
        ++ [EvPrint ("Running Summary for " +:+ pretty (length (texts (self w)))
                     +:+ " texts.")]
        ++ text_loop_events 0 (texts (self w))
        ++ table_loop_events (length (texts (self w))) (tables (self w)))
       (collection w) (self w)).
Proof.
  unfold create_summary.
  erewrite bind_Ok; [|reflexivity].
  erewrite bind_Ok; [|reflexivity].
  erewrite bind_Ok; [|apply text_loop_spec].
  cbn beta iota.
  erewrite bind_Ok; [|apply table_loop_spec].
  cbn. unfold mret, M_ret. by rewrite <- !app_assoc.
Qed.

Lemma create_img_summary_spec w :
  create_img_summary vision_llm w =
    (Ok (image_replies vision_llm (llm_calls w) (images (self w))),
     mkWorld (environ w) (uuid_draws w) (llm_calls w + length (images (self w)))
       (events w
        ++ [EvPrint ("Running Summary for " +:+ pretty (length (images (self w)))
                     +:+ " Images.")]
        ++ image_loop_events (images (self w)))
       (collection w) (self w)).
Proof.
  unfold create_img_summary.
  erewrite bind_Ok; [|reflexivity].
  erewrite bind_Ok; [|reflexivity].
  rewrite image_loop_spec. cbn. by rewrite <- !app_assoc.
Qed.

Lemma text_replies_length calls (l : list Chunk) :
  length (text_replies text_llm calls l) = length l.
Proof. revert calls. induction l; intros; simpl; [done|by rewrite IHl]. Qed.

Lemma image_replies_length calls (l : list string) :
  length (image_replies vision_llm calls l) = length l.
Proof. revert calls. induction l; intros; simpl; [done|by rewrite IHl]. Qed.

Lemma documents_app key s1 s2 i1 i2 :
  length s1 = length i1 →
  documents key (s1 ++ s2) (i1 ++ i2) = documents key s1 i1 ++ documents key s2 i2.
Proof. intros H. unfold documents. by rewrite zip_with_app. Qed.

Lemma next_ids_app w n1 n2 :
  next_ids uuid4 w (n1 + n2) = next_ids uuid4 w n1 ++ (uuid4 <$> seq (uuid_draws w + n1) n2).
Proof. unfold next_ids. by rewrite seq_app, fmap_app. Qed.

Lemma contents_of_length o :
  length (contents_of o) = length (texts o) + length (tables o) + length (images o).
Proof. unfold contents_of. rewrite !length_app, !length_fmap. lia. Qed.

(** With more summaries than identifiers the comprehension stops at
    [ids[i]], the world as it was. *)
Lemma make_documents_from_raise key ids w (summaries : list string) k :
  k ≤ length ids → length ids < k + length summaries →
  mapM (λ p : nat * string,
          id ← subscript ids p.1; mret (mkDocument p.2 {[ key := id ]}))
       (zip (seq k (length summaries)) summaries) w
  = (Raise IndexError, w).
Proof.
  revert k. induction summaries as [|s summaries IH]; intros k Hk Hlen; simpl in *.
  - lia.
  - destruct (ids !! k) as [id|] eqn:Hid.
    + apply lookup_lt_Some in Hid as Hk'.
      erewrite bind_Ok; [|erewrite bind_Ok; [done|]; unfold subscript; by rewrite Hid].
      erewrite bind_Raise; [done|]. apply IH; lia.
    + erewrite bind_Raise; [done|].
      erewrite bind_Raise; [done|]. unfold subscript. by rewrite Hid.
Qed.

Lemma make_documents_raise key summaries ids w :
  length ids < length summaries →
  make_documents key summaries ids w = (Raise IndexError, w).
Proof.
  intros Hlen. unfold make_documents, enumerate.
  apply (make_documents_from_raise key ids w summaries 0); lia.
Qed.

Lemma next_ids_len w n : length (next_ids uuid4 w n) = n.
Proof. unfold next_ids. by rewrite length_fmap, length_seq. Qed.

Lemma not_nil_length {A B} (l : list A) (k : list B) :
  length l = length k → k ≠ [] → l ≠ [].
Proof. by destruct l, k. Qed.

(** One batch: identifiers, documents, both stores. *)
Lemma batch_Ok {A} (f : A → Stored) (items : list A) key summaries w :
  key = id_key (self w) →
  summaries ≠ [] →
  length summaries ≤ length items →
  (ids ← new_ids uuid4 items;
   docs ← make_documents key summaries ids;
   add_documents empty_batch_error docs;;
   mset (zip ids (f <$> items))) w
  = (Ok tt, index_batch uuid4 summaries (f <$> items) w).
Proof.
  intros -> Hsome Hlen.
  assert (Hitems : items ≠ []).
  { intros ->. destruct summaries; simpl in *; [done|lia]. }
  step by apply new_ids_spec.
  step by (apply make_documents_spec; rewrite length_fmap, length_seq; lia).
  step by by apply add_documents_spec, documents_not_nil.
  rewrite mset_spec. tidy.
  unfold index_batch, next_ids. rewrite length_fmap. reflexivity.
Qed.

(** One batch with a summary too many: the identifiers are drawn and
    nothing is stored. *)
Lemma batch_Raise {A} (f : A → Stored) (items : list A) key summaries w :
  length items < length summaries →
  (ids ← new_ids uuid4 items;
   docs ← make_documents key summaries ids;
   add_documents empty_batch_error docs;;
   mset (zip ids (f <$> items))) w
  = (Raise IndexError,
     mkWorld (environ w) (uuid_draws w + length items) (llm_calls w) (events w)
       (collection w) (self w)).
Proof.
  intros Hlen.
  step by apply new_ids_spec.
  erewrite bind_Raise; [done|].
  apply make_documents_raise. by rewrite length_fmap, length_seq.
Qed.

(** One batch without a summary: the identifiers are drawn, the vector
    store refuses the empty list of documents, and nothing is stored. *)
Lemma batch_empty {A} (f : A → Stored) (items : list A) key w :
  (ids ← new_ids uuid4 items;
   docs ← make_documents key [] ids;
   add_documents empty_batch_error docs;;
   mset (zip ids (f <$> items))) w
  = (Raise (ValueError empty_batch_error),
     mkWorld (environ w) (uuid_draws w + length items) (llm_calls w) (events w)
       (collection w) (self w)).
Proof.
  step by apply new_ids_spec.
  step by (apply make_documents_spec; simpl; lia).
  by erewrite bind_Raise; [|apply add_documents_nil].
Qed.

Lemma index_batch_nil summaries w : index_batch uuid4 summaries [] w = w.
Proof.
  unfold index_batch, next_ids, documents. simpl.
  rewrite zip_with_nil_r, !app_nil_r, Nat.add_0_r.
  by destruct w as [? ? ? ? ? []].
Qed.

(** The first batch of [bind_data], then what follows it. *)
Lemma bind_data_texts w :
  text_summaries (self w) ≠ [] →
  length (text_summaries (self w)) ≤ length (texts (self w)) →
  bind_data uuid4 empty_batch_error w
  = ((if bool_decide (tables (self w) ≠ [])
      then
        table_ids ← new_ids uuid4 (tables (self w));
        summary_tables ← make_documents (id_key (self w))
                           (table_summaries (self w)) table_ids;
        add_documents empty_batch_error summary_tables;;
        mset (zip table_ids (StoredChunk <$> tables (self w)))
      else mret tt);;
     img_ids ← new_ids uuid4 (images (self w));
     summary_imgs ← make_documents (id_key (self w)) (image_summaries (self w)) img_ids;
     add_documents empty_batch_error summary_imgs;;
     mset (zip img_ids (StoredImage <$> images (self w))))
    (bound_texts uuid4 w).
Proof.
  intros Hsome Ht.
  assert (Hitems : texts (self w) ≠ []).
  { intros Hnil. rewrite Hnil in Ht.
    destruct (text_summaries (self w)); simpl in *; [done|lia]. }
  unfold bind_data. rewrite bind_get_self.
  step by apply new_ids_spec.
  step by (apply make_documents_spec; rewrite length_fmap, length_seq; lia).
  step by by apply add_documents_spec, documents_not_nil.
  step by apply mset_spec.
  unfold bound_texts, index_batch, next_ids. rewrite length_fmap. tidy.
  reflexivity.
Qed.

(** Without a text summary [bind_data] stops at its first call of
    [add_documents]: the identifiers for the texts are drawn and lost, and
    neither store is touched. *)
Lemma bind_data_no_texts w :
  text_summaries (self w) = [] →
  bind_data uuid4 empty_batch_error w
  = (Raise (ValueError empty_batch_error),
     mkWorld (environ w) (uuid_draws w + length (texts (self w)))
       (llm_calls w) (events w) (collection w) (self w)).
Proof.
  intros Hnone. unfold bind_data. rewrite bind_get_self, Hnone.
  step by apply new_ids_spec.
  step by (apply make_documents_spec; simpl; lia).
  by erewrite bind_Raise; [|apply add_documents_nil].
Qed.

(** The middle of [bind_data]: the tables, when there are any. *)
Lemma tables_block w0 w :
  tables (self w) = tables (self w0) →
  table_summaries (self w) = table_summaries (self w0) →
  id_key (self w) = id_key (self w0) →
  tables (self w0) = [] ∨
  table_summaries (self w0) ≠ [] ∧
  length (table_summaries (self w0)) ≤ length (tables (self w0)) →
  (if bool_decide (tables (self w0) ≠ [])
   then
     table_ids ← new_ids uuid4 (tables (self w0));
     summary_tables ← make_documents (id_key (self w0))
                        (table_summaries (self w0)) table_ids;
     add_documents empty_batch_error summary_tables;;
     mset (zip table_ids (StoredChunk <$> tables (self w0)))
   else mret tt) w
  = (Ok tt, index_batch uuid4 (table_summaries (self w0))
              (StoredChunk <$> tables (self w0)) w).
Proof.
  intros Htables Hsummaries Hkey Hlen.
  destruct (tables (self w0)) as [|b bs] eqn:Hb.
  - rewrite bool_decide_eq_false_2 by (intros H; by apply H).
    by rewrite index_batch_nil.
  - rewrite bool_decide_eq_true_2 by done.
    destruct Hlen as [|[Hsome Hlen]]; [done|]. by apply batch_Ok.
Qed.

(** [bind_data] when every batch has a summary and none has a summary too
    many. *)
Lemma bind_data_batches w :
  text_summaries (self w) ≠ [] →
  length (text_summaries (self w)) ≤ length (texts (self w)) →
  tables (self w) = [] ∨
  table_summaries (self w) ≠ [] ∧
  length (table_summaries (self w)) ≤ length (tables (self w)) →
  image_summaries (self w) ≠ [] →
  length (image_summaries (self w)) ≤ length (images (self w)) →
  bind_data uuid4 empty_batch_error w = (Ok tt, bound_images uuid4 w).
Proof.
  intros Hts Ht Hb His Hi. rewrite bind_data_texts by done.
  erewrite bind_Ok; [|by apply tables_block].
  by apply batch_Ok.
Qed.

(** Without an image summary [bind_data] stops at its last call of
    [add_documents]: texts and tables are in both stores by then, and the
    identifiers for the images are drawn and lost. *)
Lemma bind_data_no_images w :
  text_summaries (self w) ≠ [] →
  length (text_summaries (self w)) ≤ length (texts (self w)) →
  tables (self w) = [] ∨
  table_summaries (self w) ≠ [] ∧
  length (table_summaries (self w)) ≤ length (tables (self w)) →
  image_summaries (self w) = [] →
  bind_data uuid4 empty_batch_error w
  = (Raise (ValueError empty_batch_error),
     mkWorld (environ w)
       (uuid_draws w + length (texts (self w)) + length (tables (self w))
        + length (images (self w)))
       (llm_calls w) (events w) (collection (bound_tables uuid4 w))
       (self (bound_tables uuid4 w))).
Proof.
  intros Hts Ht Hb His. rewrite bind_data_texts by done.
  erewrite bind_Ok; [|by apply tables_block].
  rewrite His, batch_empty.
  unfold bound_tables, bound_texts, index_batch. tidy.
  by rewrite !length_fmap.
Qed.

(** On an object whose contents have their summaries the three batches
    together are what [bound] describes. *)
Lemma bound_images_bound w :
  aligned (self w) → bound_images uuid4 w = bound uuid4 w.
Proof.
  intros (Ht & Hb & Hi).
  unfold bound_images, bound_tables, bound_texts, index_batch, bound,
    new_documents, new_pairs, next_ids. tidy.
  rewrite !length_fmap, contents_of_length.
  unfold summaries_of, contents_of.
  rewrite !seq_app, !fmap_app, <- !app_assoc.
  rewrite !documents_app by (rewrite length_fmap, length_seq; lia).
  rewrite !zip_with_app by (rewrite !length_fmap, length_seq; lia).
  rewrite !store_all_app.
  unfold set_docDB, set_vDB. tidy.
  by rewrite !Nat.add_assoc.
Qed.

(** [bind_data] on an object whose contents have their summaries, with a
    text and an image among them. *)
Lemma bind_data_spec w :
  aligned (self w) → stocked (self w) →
  bind_data uuid4 empty_batch_error w = (Ok tt, bound uuid4 w).
Proof.
  intros Hal [Htexts Himages]. rewrite <- bound_images_bound by done.
  destruct Hal as (Ht & Hb & Hi).
  apply bind_data_batches.
  - by eapply not_nil_length.
  - lia.
  - destruct (tables (self w)) eqn:Htables; [by left|right].
    split; [|lia]. eapply not_nil_length; [exact Hb|done].
  - by eapply not_nil_length.
  - lia.
Qed.

(** [bind_data] returns only when there is a text and an image. *)
Lemma bind_data_Ok_inv w w' :
  aligned (self w) →
  bind_data uuid4 empty_batch_error w = (Ok tt, w') →
  stocked (self w) ∧ w' = bound uuid4 w.
Proof.
  intros Hal Hrun.
  destruct (texts (self w)) as [|t ts] eqn:Htexts.
  { destruct Hal as (Ht & _ & _). rewrite Htexts in Ht.
    apply nil_length_inv in Ht. by rewrite bind_data_no_texts in Hrun. }
  destruct (images (self w)) as [|b bs] eqn:Himages.
  { destruct Hal as (Ht & Hb & Hi). rewrite Himages in Hi.
    apply nil_length_inv in Hi.
    rewrite bind_data_no_images in Hrun; [done| | | |done].
    - eapply not_nil_length; [exact Ht|by rewrite Htexts].
    - lia.
    - destruct (tables (self w)) eqn:Htables; [by left|right].
      split; [|lia]. eapply not_nil_length; [exact Hb|done]. }
  assert (Hst : stocked (self w)) by (split; congruence).
  split; [done|]. rewrite bind_data_spec in Hrun by done. congruence.
Qed.

Lemma prepared_aligned path w0 :
  aligned (self (prepared partition_pdf text_llm vision_llm path w0)).
Proof.
  unfold aligned, prepared. simpl.
  by rewrite !text_replies_length, image_replies_length.
Qed.

(** With both keys set, [PDFLoader(path)] partitions, summarises and then
    calls [bind_data] in the world [prepared]. *)
Lemma new_PDFLoader_prepared path w0 :
  configured w0 →
  new_PDFLoader partition_pdf text_llm vision_llm uuid4 empty_batch_error path w0
  = bind_data uuid4 empty_batch_error (prepared partition_pdf text_llm vision_llm path w0).
Proof.
  intros [Htogether Hgoogle]. unfold new_PDFLoader, __init__.
  rewrite !bind_modify_self, !bind_getenv. tidy.
  rewrite Htogether, Hgoogle, !bind_mret.
  unfold call_partition_pdf. rewrite bind_assoc, bind_emit, bind_mret. tidy.
  rewrite bind_modify_self. tidy.
  step by apply get_text_tables_spec.
  cbn beta iota. rewrite !bind_modify_self. tidy.
  step by apply get_imagesb64_spec.
  rewrite bind_modify_self. tidy.
  step by apply create_summary_spec.
  cbn beta iota. rewrite !bind_modify_self. tidy.
  step by apply create_img_summary_spec.
  rewrite !bind_modify_self. tidy.
  f_equal. unfold prepared. same_run.
Qed.

(** On an object whose contents have their summaries, [bind_data] returns
    exactly when there is a text and an image. *)
Lemma bind_data_returns_iff w :
  aligned (self w) →
  (∃ w', bind_data uuid4 empty_batch_error w = (Ok tt, w')) ↔ stocked (self w).
Proof.
  intros Hal. split.
  - intros [w' Hrun]. by apply bind_data_Ok_inv in Hrun as [? _].
  - intros Hst. exists (bound uuid4 w). by apply bind_data_spec.
Qed.

(** An embedded image sits in a composite chunk, so a partition with an
    image has a text. *)
Lemma images_of_texts (l : list Chunk) :
  images_of l ≠ [] → filter (λ c, is_text c) l ≠ [].
Proof.
  induction l as [|c l IH]; [done|].
  unfold images_of. rewrite fmap_cons. cbn [concat].
  rewrite filter_cons. destruct (is_text c) eqn:Htext.
  - by rewrite decide_True by by apply Is_true_true.
  - rewrite decide_False by (by rewrite Is_true_false). exact IH.
Qed.

Lemma prepared_stocked path w0 :
  images_of (partition_pdf path) ≠ [] →
  stocked (self (prepared partition_pdf text_llm vision_llm path w0)).
Proof. intros Himages. split; [by apply images_of_texts|done]. Qed.

(** With both keys set and an image embedded in the document, the
    constructor returns. *)
Lemma new_PDFLoader_spec path w0 :
  configured w0 →
  images_of (partition_pdf path) ≠ [] →
  new_PDFLoader partition_pdf text_llm vision_llm uuid4 empty_batch_error path w0
  = (Ok tt, bound uuid4 (prepared partition_pdf text_llm vision_llm path w0)).
Proof.
  intros Hconf Himages. rewrite new_PDFLoader_prepared by done.
  apply bind_data_spec; [apply prepared_aligned|by apply prepared_stocked].
Qed.

(** Without one of the keys, [__init__] stops at its check: the only
    assignment made is [self.pdf_path]. *)
Lemma init_unconfigured path w0 :
  ¬ configured w0 →
  __init__ partition_pdf text_llm vision_llm uuid4 empty_batch_error path w0
  = (Raise (ValueError (missing_key_message w0)),
     mkWorld (environ w0) (uuid_draws w0) (llm_calls w0) (events w0) (collection w0)
       (set_pdf_path path (self w0))).
Proof.
  intros Hconf. unfold __init__, missing_key_message.
  rewrite !bind_modify_self, !bind_getenv. cbn [environ].
  destruct (py_not (environ w0 !! "TOGETHER_API_KEY")) eqn:Htogether.
  - by rewrite bind_raise.
  - destruct (py_not (environ w0 !! "GOOGLE_API_KEY")) eqn:Hgoogle.
    + by rewrite bind_mret, bind_raise.
    + destruct Hconf. by split.
Qed.

Lemma new_PDFLoader_unconfigured path w0 :
  ¬ configured w0 →
  new_PDFLoader partition_pdf text_llm vision_llm uuid4 empty_batch_error path w0
  = (Raise (ValueError (missing_key_message w0)),
     mkWorld (environ w0) (uuid_draws w0) (llm_calls w0) (events w0) (collection w0)
       (set_pdf_path path fresh_object)).
Proof.
  intros Hconf. unfold new_PDFLoader. rewrite bind_modify_self.
  by apply (init_unconfigured path (mkWorld _ _ _ _ _ _)).
Qed.

(** The constructor returns only when both keys are set and an image is
    embedded in the document. *)
Lemma new_PDFLoader_Ok_inv path w0 w :
  new_PDFLoader partition_pdf text_llm vision_llm uuid4 empty_batch_error path w0
  = (Ok tt, w) →
  configured w0 ∧ images_of (partition_pdf path) ≠ [] ∧
  w = bound uuid4 (prepared partition_pdf text_llm vision_llm path w0).
Proof.
  intros Hrun. destruct (decide (configured w0)) as [Hconf|Hconf].
  - rewrite new_PDFLoader_prepared in Hrun by done.
    apply bind_data_Ok_inv in Hrun as [[_ Himages] ->]; [|apply prepared_aligned].
    done.
  - rewrite new_PDFLoader_unconfigured in Hrun by done. congruence.
Qed.

End Operations.

(** ** Linked stores *)

Lemma documents_length key summaries ids :
  length (documents key summaries ids) = length summaries `min` length ids.
Proof. unfold documents. apply length_zip_with. Qed.

Lemma documents_ids key summaries ids :
  length summaries = length ids →
  omap (λ d, metadata d !! key) (documents key summaries ids) = ids.
Proof.
  revert ids. induction summaries as [|s summaries IH]; intros [|id ids] Hlen;
    simpl in *; try done.
  rewrite lookup_singleton_eq. f_equal. apply IH. lia.
Qed.

Lemma documents_meta key summaries ids :
  Forall (λ d, ∃ id, metadata d = {[ key := id ]}) (documents key summaries ids).
Proof.
  revert ids. induction summaries as [|s summaries IH]; intros [|id ids];
    simpl; constructor; eauto.
Qed.

Lemma documents_contents key summaries ids :
  length summaries = length ids →
  page_content <$> documents key summaries ids = summaries.
Proof.
  revert ids. induction summaries as [|s summaries IH]; intros [|id ids] Hlen;
    simpl in *; try done.
  f_equal. apply IH. lia.
Qed.

Lemma documents_lookup key summaries ids i s id :
  summaries !! i = Some s → ids !! i = Some id →
  documents key summaries ids !! i = Some (mkDocument s {[ key := id ]}).
Proof.
  intros Hs Hid. unfold documents. rewrite lookup_zip_with, Hs. simpl.
  by rewrite Hid.
Qed.

Lemma meta_ids_length key (l : list Document) :
  Forall (λ d, ∃ id, metadata d = {[ key := id ]}) l →
  length (omap (λ d, metadata d !! key) l) = length l.
Proof.
  induction 1 as [|d l (id & Hd) _ IH]; simpl; [done|].
  rewrite Hd, lookup_singleton_eq. simpl. f_equal. exact IH.
Qed.

Lemma summaries_of_length o :
  aligned o → length (summaries_of o) = length (contents_of o).
Proof.
  intros (Ht & Hb & Hi). unfold summaries_of, contents_of.
  rewrite !length_app, !length_fmap. lia.
Qed.

Lemma store_all_lookup_Some store pairs k v :
  store_all store pairs !! k = Some v → store !! k = Some v ∨ (k, v) ∈ pairs.
Proof.
  induction pairs as [|[k' v'] pairs IH] using rev_ind; [by left|].
  rewrite store_all_snoc. destruct (decide (k' = k)) as [->|Hne].
  - rewrite lookup_insert_eq. intros [= ->]. right.
    apply elem_of_app. right. by left.
  - rewrite lookup_insert_ne by done. intros H.
    destruct (IH H) as [?|?]; [by left|right].
    apply elem_of_app. by left.
Qed.

Lemma sublist_omap {A B} (f : A → option B) (l1 l2 : list A) :
  l1 `sublist_of` l2 → omap f l1 `sublist_of` omap f l2.
Proof.
  induction 1 as [|x l1 l2 _ IH|x l1 l2 _ IH]; simpl.
  - constructor.
  - destruct (f x); [by constructor|done].
  - destruct (f x); [by constructor|done].
Qed.

Lemma StronglySorted_take {A} (R : relation A) (l : list A) k :
  StronglySorted R l → StronglySorted R (take k l).
Proof.
  intros Hl. revert k. induction Hl as [|x l _ IH Hx]; intros [|k]; simpl;
    try constructor; [apply IH|].
  apply Forall_take, Hx.
Qed.

Lemma omap_lookup_total {A B} (f : A → option B) (l : list A) k x y :
  Forall (λ x, is_Some (f x)) l → l !! k = Some x → f x = Some y →
  omap f l !! k = Some y.
Proof.
  intros Hall. revert k. induction Hall as [|x' l [y' Hy'] _ IH]; intros k Hk Hfx.
  - by rewrite lookup_nil in Hk.
  - simpl. rewrite Hy'. destruct k as [|k]; simpl in *.
    + congruence.
    + by apply IH.
Qed.

Lemma image_replies_lookup vision_llm calls (l : list string) j b :
  l !! j = Some b →
  image_replies vision_llm calls l !! j
  = Some (vision_llm (calls + j) image_instruction (image_url b)).
Proof.
  revert calls j. induction l as [|b' l IH]; intros calls [|j] Hj; simpl in *;
    try done.
  - injection Hj as ->. by rewrite Nat.add_0_r.
  - rewrite (IH (S calls) j Hj). do 2 f_equal. lia.
Qed.

(** A chunk that is neither a table nor a composite element leaves no
    trace in the lists [get_text_tables] and [get_imagesb64] build. *)
Lemma filter_skip {A} (P : A → Prop) `{!∀ x, Decision (P x)} before c after :
  ¬ P c → filter P (before ++ c :: after) = filter P (before ++ after).
Proof. intros Hc. by rewrite !filter_app, filter_cons_False. Qed.

Lemma images_of_skip before c after :
  is_text c = false → images_of (before ++ c :: after) = images_of (before ++ after).
Proof.
  intros Hc. unfold images_of. rewrite !fmap_app, !concat_app. simpl.
  by rewrite Hc.
Qed.

(** ** The timing of the summaries *)

Lemma text_loop_timing count (l : list Chunk) :
  filter (λ e, is_timing e) (text_loop_events count l)
  = concat (imap (λ i c,
                    (if bool_decide ((count + i + 1) `mod` 10 = 0)
                     then [EvSleep 500] else [])
                    ++ [EvInvokeText (summary_prompt (text c))]) l).
Proof.
  revert count. induction l as [|c l IH]; intros count; [done|].
  cbn [text_loop_events]. rewrite imap_cons. cbn [concat].
  rewrite filter_cons_False by (simpl; intros []).
  rewrite Nat.add_0_r, filter_app.
  rewrite filter_cons_True by done.
  rewrite IH. rewrite <- app_assoc. f_equal.
  - destruct (bool_decide ((count + 1) `mod` 10 = 0)); [|done].
    rewrite filter_cons_False by (simpl; intros []).
    by rewrite filter_cons_True.
  - simpl. do 2 f_equal. apply imap_ext. intros i x _. simpl.
    by replace (count + 1 + i + 1) with (count + S i + 1) by lia.
Qed.

Lemma table_loop_timing count (l : list Chunk) :
  filter (λ e, is_timing e) (table_loop_events count l)
  = (λ c, EvInvokeText (summary_prompt (text c))) <$> l.
Proof.
  revert count. induction l as [|c l IH]; intros count; [done|].
  cbn [table_loop_events]. rewrite filter_cons_False by (simpl; intros []).
  rewrite filter_cons_True by done. by rewrite IH.
Qed.

Lemma image_loop_timing (l : list string) :
  filter (λ e, is_timing e) (image_loop_events l) = image_loop_events l.
Proof.
  unfold image_loop_events. induction l as [|b l IH]; [done|].
  rewrite fmap_cons, filter_cons_True by done. by rewrite IH.
Qed.

Lemma table_calls (l : list Chunk) :
  filter (λ e, is_call e) ((λ c, EvInvokeText (summary_prompt (text c))) <$> l)
  = (λ c, EvInvokeText (summary_prompt (text c))) <$> l.
Proof.
  induction l as [|c l IH]; [done|].
  rewrite fmap_cons, filter_cons_True by done. by rewrite IH.
Qed.

Section Linking.

Variable uuid4 : nat → string.
Hypothesis uuid4_inj : Inj (=) (=) uuid4.

Lemma next_ids_length w n : length (next_ids uuid4 w n) = n.
Proof. unfold next_ids. by rewrite length_fmap, length_seq. Qed.

Lemma next_ids_NoDup w n : NoDup (next_ids uuid4 w n).
Proof. unfold next_ids. apply NoDup_fmap_2; [done|apply NoDup_seq]. Qed.

Lemma next_ids_lookup w n i :
  i < n → next_ids uuid4 w n !! i = Some (uuid4 (uuid_draws w + i)).
Proof.
  intros Hi. unfold next_ids. rewrite list_lookup_fmap, lookup_seq_lt by done.
  done.
Qed.

(** An identifier drawn now was not drawn before. *)
Lemma next_ids_fresh w n id :
  Forall (λ id, ∃ i, i < uuid_draws w ∧ id = uuid4 i) (doc_ids_of (self w)) →
  id ∈ next_ids uuid4 w n → id ∉ doc_ids_of (self w).
Proof.
  intros Hdrawn Hnew Hold. unfold next_ids in Hnew.
  apply list_elem_of_fmap in Hnew as (j & -> & Hj).
  apply elem_of_seq in Hj.
  rewrite Forall_forall in Hdrawn.
  destruct (Hdrawn _ Hold) as (i & Hi & Heq).
  apply uuid4_inj in Heq. lia.
Qed.

Lemma bound_doc_ids w :
  aligned (self w) →
  doc_ids_of (self (bound uuid4 w))
  = doc_ids_of (self w) ++ next_ids uuid4 w (length (contents_of (self w))).
Proof.
  intros Hal. unfold doc_ids_of, bound, new_documents. simpl.
  rewrite omap_app. f_equal.
  apply documents_ids. by rewrite summaries_of_length, next_ids_length.
Qed.

Lemma bound_contents w :
  contents_of (self (bound uuid4 w)) = contents_of (self w).
Proof. done. Qed.

Lemma new_pairs_keys w :
  (new_pairs uuid4 w).*1 = next_ids uuid4 w (length (contents_of (self w))).
Proof.
  unfold new_pairs. apply fst_zip. by rewrite next_ids_length.
Qed.

Lemma new_pairs_length w :
  length (new_pairs uuid4 w) = length (contents_of (self w)).
Proof.
  unfold new_pairs. rewrite length_zip_with, next_ids_length. lia.
Qed.

Lemma bound_linked w : linked uuid4 w → linked uuid4 (bound uuid4 w).
Proof.
  intros [Hal Hmeta Hdrawn Hnodup Hdom]. split.
  - done.
  - simpl. apply Forall_app. split; [done|apply documents_meta].
  - rewrite bound_doc_ids by done. apply Forall_app. split.
    + eapply Forall_impl; [exact Hdrawn|].
      simpl. intros id (i & Hi & ->). exists i. split; [lia|done].
    + apply Forall_forall. intros id Hid. unfold next_ids in Hid.
      apply list_elem_of_fmap in Hid as (j & -> & Hj).
      apply elem_of_seq in Hj. exists j. simpl. split; [lia|done].
  - rewrite bound_doc_ids by done. apply NoDup_app. split; [done|]. split.
    + intros id Hold Hnew. exact (next_ids_fresh w _ id Hdrawn Hnew Hold).
    + apply next_ids_NoDup.
  - rewrite bound_doc_ids by done. simpl.
    by rewrite store_all_dom, new_pairs_keys, Hdom, list_to_set_app_L.
Qed.

End Linking.

(** ** The claims *)

Section Claims.

Variable partition_pdf : string → list Chunk.
Variable text_llm : nat → string → string.
Variable vision_llm : nat → string → string → string.
Variable uuid4 : nat → string.
Variable empty_batch_error : string.
Variable distance : string → string → nat.

(** Two draws of [uuid.uuid4()] never give the same identifier. *)
Hypothesis uuid4_inj : Inj (=) (=) uuid4.

(** The batches of an object whose contents have their summaries. *)
Lemma aligned_batches o :
  aligned o → texts o ≠ [] →
  text_summaries o ≠ [] ∧
  length (text_summaries o) ≤ length (texts o) ∧
  (tables o = [] ∨
   table_summaries o ≠ [] ∧ length (table_summaries o) ≤ length (tables o)) ∧
  length (image_summaries o) ≤ length (images o).
Proof.
  intros (Ht & Hb & Hi) Htexts.
  split; [by eapply not_nil_length|].
  split; [lia|]. split; [|lia].
  destruct (tables o) eqn:Htables; [by left|right].
  split; [|lia]. eapply not_nil_length; [exact Hb|done].
Qed.

(** However [bind_data] ends, it leaves the trace, the call count and the
    environment alone, changes nothing of the object but the two stores,
    and puts nothing into the content store but contents of the object. *)
Lemma bind_data_frame w r w' :
  aligned (self w) →
  bind_data uuid4 empty_batch_error w = (r, w') →
  events w' = events w ∧
  llm_calls w' = llm_calls w ∧
  environ w' = environ w ∧
  set_vDB [] (set_docDB ∅ (self w')) = set_vDB [] (set_docDB ∅ (self w)) ∧
  ∀ id v, docDB (self w') !! id = Some v →
          docDB (self w) !! id = Some v ∨ v ∈ contents_of (self w).
Proof.
  intros Hal Hrun.
  destruct (texts (self w)) as [|t ts] eqn:Htexts.
  { destruct Hal as (Ht & _ & _). rewrite Htexts in Ht.
    apply nil_length_inv in Ht. rewrite bind_data_no_texts in Hrun by done.
    injection Hrun as <- <-. repeat split; try done. intros id v Hv. by left. }
  destruct (aligned_batches (self w) Hal) as (Hts & Ht & Hb & Hi);
    [by rewrite Htexts|].
  assert (Hvalues : ∀ id v,
            docDB (self (bound_tables uuid4 w)) !! id = Some v →
            docDB (self w) !! id = Some v ∨ v ∈ contents_of (self w)).
  { intros id v Hv. unfold bound_tables, bound_texts, index_batch in Hv.
    cbn [self docDB set_docDB set_vDB tables texts] in Hv.
    unfold contents_of. rewrite !elem_of_app.
    apply store_all_lookup_Some in Hv as [Hv|Hv];
      [apply store_all_lookup_Some in Hv as [Hv|Hv]|].
    - by left.
    - right. left. by apply elem_of_zip_r in Hv.
    - right. right. left. by apply elem_of_zip_r in Hv. }
  destruct (images (self w)) as [|b bs] eqn:Himages.
  { destruct Hal as (_ & _ & Himgs). rewrite Himages in Himgs.
    apply nil_length_inv in Himgs.
    rewrite bind_data_no_images in Hrun by done.
    injection Hrun as <- <-. repeat split; try done. }
  rewrite bind_data_spec in Hrun by first [exact Hal|split; congruence].
  injection Hrun as <- <-. repeat split; try done.
  intros id v Hv. cbn [self bound docDB set_docDB set_vDB] in Hv.
  apply store_all_lookup_Some in Hv as [Hv|Hv]; [by left|right].
  by apply elem_of_zip_r in Hv.
Qed.

(** [bind_data] does not look at the attribute [chunks]. *)
Lemma bind_data_chunks cs w :
  aligned (self w) →
  bind_data uuid4 empty_batch_error (with_self (set_chunks cs) w)
  = (fst (bind_data uuid4 empty_batch_error w),
     with_self (set_chunks cs) (snd (bind_data uuid4 empty_batch_error w))).
Proof.
  intros Hal.
  destruct (texts (self w)) as [|t ts] eqn:Htexts.
  { destruct Hal as (Ht & _ & _). rewrite Htexts in Ht.
    apply nil_length_inv in Ht. by rewrite !bind_data_no_texts by done. }
  destruct (aligned_batches (self w) Hal) as (Hts & Ht & Hb & Hi);
    [by rewrite Htexts|].
  destruct (images (self w)) as [|b bs] eqn:Himages.
  { destruct Hal as (_ & _ & Himgs). rewrite Himages in Himgs.
    apply nil_length_inv in Himgs.
    by rewrite !bind_data_no_images by done. }
  assert (Hst : stocked (self w)) by (split; congruence).
  by rewrite !bind_data_spec by first [exact Hal|exact Hst].
Qed.

(** A loader that opens an empty collection starts from linked stores. *)
Lemma prepared_linked path w0 :
  collection w0 = [] →
  linked uuid4 (prepared partition_pdf text_llm vision_llm path w0).
Proof.
  intros Hfresh. split.
  - apply prepared_aligned.
  - simpl. rewrite Hfresh. constructor.
  - unfold doc_ids_of. simpl. rewrite Hfresh. constructor.
  - unfold doc_ids_of. simpl. rewrite Hfresh. constructor.
  - unfold doc_ids_of. simpl. by rewrite Hfresh, dom_empty_L.
Qed.

(** The first loader of a process: its stores are linked, and it has a
    text and an image. *)
Lemma first_loader_linked path w0 w :
  collection w0 = [] →
  new_PDFLoader partition_pdf text_llm vision_llm uuid4 empty_batch_error path w0
  = (Ok tt, w) →
  linked uuid4 w ∧ stocked (self w).
Proof.
  intros Hfresh Hrun.
  apply new_PDFLoader_Ok_inv in Hrun as (_ & Himages & ->).
  split.
  - apply bound_linked; [done|by apply prepared_linked].
  - by apply (prepared_stocked partition_pdf text_llm vision_llm path w0).
Qed.

(** What every loader has, however often it was rebound: a summary for
    every content, a text and an image, and the composite chunks of its
    partition as its texts. *)
Lemma reachable_stocked w :
  reachable partition_pdf text_llm vision_llm uuid4 empty_batch_error w →
  aligned (self w) ∧ stocked (self w) ∧
  texts (self w) = filter (λ c, is_text c) (chunks (self w)).
Proof.
  induction 1 as [path w0 w Hnew|w w' Hreach (Hal & Hst & Htexts) Hbind].
  - apply new_PDFLoader_Ok_inv in Hnew as (_ & Himages & ->).
    split; [apply prepared_aligned|].
    split; [|done].
    by apply (prepared_stocked partition_pdf text_llm vision_llm path w0).
  - apply bind_data_Ok_inv in Hbind as [_ ->]; done.
Qed.

(** What a loader sees through its handle is the collection of the
    process. *)
Lemma reachable_view w :
  reachable partition_pdf text_llm vision_llm uuid4 empty_batch_error w →
  vDB (self w) = collection w.
Proof.
  induction 1 as [path w0 w Hnew|w w' Hreach IH Hbind].
  - by apply new_PDFLoader_Ok_inv in Hnew as (_ & _ & ->).
  - apply reachable_stocked in Hreach as (Hal & _).
    apply bind_data_Ok_inv in Hbind as [_ ->]; [|done].
    cbn [self bound vDB collection set_docDB set_vDB]. by rewrite IH.
Qed.

(** Any number of further calls of [bind_data] succeeds. *)
Lemma rebind_reachable n w :
  reachable partition_pdf text_llm vision_llm uuid4 empty_batch_error w →
  ∃ w', rebind uuid4 empty_batch_error n w = (Ok tt, w') ∧
        reachable partition_pdf text_llm vision_llm uuid4 empty_batch_error w'.
Proof.
  revert w. induction n as [|n IH]; intros w Hreach.
  - by exists w.
  - assert (Hbind : bind_data uuid4 empty_batch_error w = (Ok tt, bound uuid4 w)).
    { apply reachable_stocked in Hreach as (Hal & Hst & _).
      by apply bind_data_spec. }
    destruct (IH (bound uuid4 w)) as (w' & Hrun & Hreach').
    { by eapply reachable_bind. }
    exists w'. split; [|done].
    cbn [rebind]. by erewrite bind_Ok.
Qed.

Lemma doc_ids_length w :
  linked uuid4 w → length (doc_ids_of (self w)) = length (vDB (self w)).
Proof.
  intros [_ Hmeta _ _ _]. by apply meta_ids_length.
Qed.

Lemma linked_size w :
  linked uuid4 w → size (docDB (self w)) = length (vDB (self w)).
Proof.
  intros Hl. rewrite <- doc_ids_length by done.
  rewrite <- size_dom, (linked_dom _ _ Hl).
  apply size_list_to_set, Hl.
Qed.

Lemma linked_lookup w id :
  linked uuid4 w → id ∈ doc_ids_of (self w) ↔ is_Some (docDB (self w) !! id).
Proof.
  intros Hl. rewrite <- elem_of_dom, (linked_dom _ _ Hl).
  by rewrite elem_of_list_to_set.
Qed.

(** The identifiers about to be drawn are not keys of the store. *)
Lemma new_pairs_fresh w k :
  linked uuid4 w → k ∈ (new_pairs uuid4 w).*1 → docDB (self w) !! k = None.
Proof.
  intros Hl Hk. rewrite new_pairs_keys in Hk.
  apply (next_ids_fresh uuid4 uuid4_inj) in Hk; [|apply Hl].
  rewrite linked_lookup in Hk by done.
  by apply eq_None_not_Some.
Qed.

(** C4: on linked stores that hold a text and an image, as those of every
    constructed loader do, two calls of [bind_data] in a row index the
    same contents twice; each call draws one identifier per content, the
    identifiers of the first call, of the second call and of all earlier
    calls are pairwise distinct, and what was stored under the earlier
    identifiers is untouched: nothing is merged. *)
Theorem C4_identifiers_pairwise_distinct w :
  linked uuid4 w →
  stocked (self w) →
  ∃ w1 w2 ids1 ids2,
    bind_data uuid4 empty_batch_error w = (Ok tt, w1) ∧
    bind_data uuid4 empty_batch_error w1 = (Ok tt, w2) ∧
    contents_of (self w1) = contents_of (self w) ∧
    doc_ids_of (self w1) = doc_ids_of (self w) ++ ids1 ∧
    doc_ids_of (self w2) = doc_ids_of (self w) ++ ids1 ++ ids2 ∧
    length ids1 = length (contents_of (self w)) ∧
    length ids2 = length (contents_of (self w)) ∧
    NoDup (doc_ids_of (self w) ++ ids1 ++ ids2) ∧
    (∀ id, id ∈ ids1 → id ∉ ids2) ∧
    vDB (self w) `prefix_of` vDB (self w1) ∧
    vDB (self w1) `prefix_of` vDB (self w2) ∧
    docDB (self w) ⊆ docDB (self w1) ∧
    docDB (self w1) ⊆ docDB (self w2) ∧
    size (docDB (self w2))
    = size (docDB (self w)) + 2 * length (contents_of (self w)).
Proof.
  intros Hl Hst.
  pose proof (bound_linked uuid4 uuid4_inj w Hl) as Hl1.
  pose proof (bound_linked uuid4 uuid4_inj _ Hl1) as Hl2.
  exists (bound uuid4 w), (bound uuid4 (bound uuid4 w)),
    (next_ids uuid4 w (length (contents_of (self w)))),
    (next_ids uuid4 (bound uuid4 w) (length (contents_of (self w)))).
  assert (Hids2 : doc_ids_of (self (bound uuid4 (bound uuid4 w)))
                  = doc_ids_of (self w)
                    ++ next_ids uuid4 w (length (contents_of (self w)))
                    ++ next_ids uuid4 (bound uuid4 w) (length (contents_of (self w)))).
  { rewrite bound_doc_ids by apply Hl1.
    rewrite bound_doc_ids by apply Hl. by rewrite <- app_assoc. }
  assert (Hnodup : NoDup (doc_ids_of (self w)
                    ++ next_ids uuid4 w (length (contents_of (self w)))
                    ++ next_ids uuid4 (bound uuid4 w) (length (contents_of (self w))))).
  { rewrite <- Hids2. apply Hl2. }
  split; [apply bind_data_spec; [apply Hl|done]|].
  split; [apply bind_data_spec; [apply Hl1|done]|].
  split; [done|].
  split; [apply bound_doc_ids, Hl|].
  split; [done|].
  split; [apply next_ids_length|].
  split; [apply next_ids_length|].
  split; [done|].
  split.
  { apply NoDup_app in Hnodup as (_ & _ & Hnodup).
    apply NoDup_app in Hnodup as (_ & Hdisj & _). done. }
  split; [simpl; by eexists|].
  split; [simpl; by eexists|].
  split.
  { simpl. apply store_all_subseteq. intros k. by apply new_pairs_fresh. }
  split.
  { apply (store_all_subseteq (docDB (self (bound uuid4 w)))).
    intros k. by apply new_pairs_fresh. }
  change (docDB (self (bound uuid4 (bound uuid4 w))))
    with (store_all (docDB (self (bound uuid4 w))) (new_pairs uuid4 (bound uuid4 w))).
  rewrite store_all_size.
  - change (docDB (self (bound uuid4 w)))
      with (store_all (docDB (self w)) (new_pairs uuid4 w)).
    rewrite store_all_size.
    + rewrite !new_pairs_length, bound_contents. lia.
    + rewrite new_pairs_keys. apply next_ids_NoDup, uuid4_inj.
    + intros k. by apply new_pairs_fresh.
  - rewrite new_pairs_keys. apply next_ids_NoDup, uuid4_inj.
  - intros k. by apply new_pairs_fresh.
Qed.

#[local] Instance closer_total query : Total (closer distance query).
Proof. intros d1 d2. unfold closer. lia. Qed.

#[local] Instance closer_trans query : Transitive (closer distance query).
Proof. intros d1 d2 d3. unfold closer. lia. Qed.

Lemma nearestDocuments_length query top_k (collection : list Document) :
  length (nearestDocuments distance query top_k collection) ≤ top_k.
Proof. unfold nearestDocuments. rewrite length_take. lia. Qed.

Lemma nearestDocuments_submseteq query top_k (collection : list Document) :
  nearestDocuments distance query top_k collection ⊆+ collection.
Proof.
  unfold nearestDocuments.
  rewrite <- (merge_sort_Permutation (closer distance query) collection) at 2.
  apply sublist_submseteq, sublist_take.
Qed.

Lemma nearestDocuments_sorted query top_k (collection : list Document) :
  StronglySorted (closer distance query)
    (nearestDocuments distance query top_k collection).
Proof.
  unfold nearestDocuments.
  apply StronglySorted_take, StronglySorted_merge_sort; apply _.
Qed.

Lemma nearestNeighbors_NoDup query top_k o :
  NoDup (doc_ids_of o) →
  NoDup (nearestNeighbors distance (id_key o) query top_k (vDB o)).
Proof.
  intros Hnd. unfold nearestNeighbors, nearestDocuments.
  eapply sublist_NoDup; [|apply sublist_omap, sublist_take].
  by rewrite (merge_sort_Permutation (closer distance query) (vDB o)).
Qed.

(** The similarity search returns identifiers of the collection. *)
Lemma nearestNeighbors_ids query top_k o id :
  id ∈ nearestNeighbors distance (id_key o) query top_k (vDB o) →
  id ∈ doc_ids_of o.
Proof.
  unfold nearestNeighbors, doc_ids_of. rewrite !list_elem_of_omap.
  intros (d & Hd & Hid). exists d. split; [|done].
  eapply elem_of_submseteq; [exact Hd|apply nearestDocuments_submseteq].
Qed.

(** On linked stores it returns one identifier for each document found. *)
Lemma nearestNeighbors_documents query top_k w :
  linked uuid4 w →
  Forall2 (λ d id, metadata d !! id_key (self w) = Some id)
    (nearestDocuments distance query top_k (vDB (self w)))
    (nearestNeighbors distance (id_key (self w)) query top_k (vDB (self w))).
Proof.
  intros Hl. unfold nearestNeighbors.
  assert (Hmeta : Forall (λ d, ∃ id, metadata d = {[ id_key (self w) := id ]})
                    (nearestDocuments distance query top_k (vDB (self w)))).
  { apply Forall_forall. intros d Hd.
    pose proof (linked_meta _ _ Hl) as Hall. rewrite Forall_forall in Hall.
    apply Hall. eapply elem_of_submseteq; [exact Hd|apply nearestDocuments_submseteq]. }
  induction Hmeta as [|d hits (id & Hd) _ IH]; simpl; [constructor|].
  rewrite Hd, lookup_singleton_eq.
  constructor; [by rewrite Hd, lookup_singleton_eq|exact IH].
Qed.

Lemma resolve_all o (ids : list string) w :
  Forall (λ id, is_Some (docDB o !! id)) ids →
  ∃ results,
    mapM (resolve o) ids w = (Ok results, w) ∧
    Forall2 (λ id r, r.1 = id ∧ docDB o !! id = Some r.2) ids results.
Proof.
  induction 1 as [|id ids [content Hget] _ (results & Hrun & Hall)].
  - exists []. by split; [|constructor].
  - exists ((id, content) :: results). split.
    + cbn [mapM].
      erewrite bind_Ok; [|unfold resolve; by rewrite Hget].
      erewrite bind_Ok; [|exact Hrun]. done.
    + by constructor.
Qed.

Lemma search_spec query top_k w :
  linked uuid4 w →
  ∃ results,
    search distance query top_k w = (Ok results, w) ∧
    Forall2 (λ id r, r.1 = id ∧ docDB (self w) !! id = Some r.2)
            (nearestNeighbors distance (id_key (self w)) query top_k (vDB (self w)))
            results.
Proof.
  intros Hl.
  destruct (resolve_all (self w)
              (nearestNeighbors distance (id_key (self w)) query top_k (vDB (self w))) w)
    as (results & Hrun & Hall).
  { apply Forall_forall. intros id Hid.
    apply linked_lookup; [done|]. by eapply nearestNeighbors_ids. }
  exists results. split; [|done].
  unfold search. by rewrite bind_get_self.
Qed.

Lemma results_ids o (ids : list string) (results : list (string * Stored)) :
  Forall2 (λ id r, r.1 = id ∧ docDB o !! id = Some r.2) ids results →
  results.*1 = ids.
Proof.
  induction 1 as [|id r ids results [Hid _] _ IH]; [done|].
  rewrite fmap_cons. by f_equal.
Qed.

(** A document that is in the collection and is the only one at least as
    close to the query as itself comes first among the nearest
    documents. *)
Lemma nearestDocuments_first query top_k (collection : list Document) d :
  0 < top_k → d ∈ collection →
  (∀ d', d' ∈ collection → closer distance query d' d → d' = d) →
  ∃ rest, nearestDocuments distance query top_k collection = d :: rest.
Proof.
  intros Hk Hd Hclosest. unfold nearestDocuments.
  pose proof (merge_sort_Permutation (closer distance query) collection) as Hperm.
  pose proof (StronglySorted_merge_sort (closer distance query) collection) as Hsorted.
  destruct (merge_sort (closer distance query) collection) as [|x sorted].
  - rewrite <- Hperm in Hd. by apply elem_of_nil in Hd.
  - assert (x = d) as ->.
    { apply Hclosest; [rewrite <- Hperm; by left|].
      rewrite <- Hperm in Hd. apply elem_of_cons in Hd as [->|Hd].
      - unfold closer. lia.
      - apply StronglySorted_inv in Hsorted as [_ Hall].
        rewrite Forall_forall in Hall. by apply Hall. }
    destruct top_k as [|k]; [lia|]. by eexists.
Qed.

(** C8: on linked stores [search] succeeds; it returns at most [top_k]
    pairs, none for [top_k = 0]; the identifiers of the pairs are
    pairwise distinct identifiers of the summary collection, each paired
    with what the content store holds under it; and the pairs follow the
    documents found, which are documents of the collection in order of
    increasing distance from the query. *)
Theorem C8_search_bounded_distinct_ranked query top_k w :
  linked uuid4 w →
  ∃ results hits,
    search distance query top_k w = (Ok results, w) ∧
    length results ≤ top_k ∧
    NoDup results.*1 ∧
    (∀ id content, (id, content) ∈ results →
       id ∈ doc_ids_of (self w) ∧ docDB (self w) !! id = Some content) ∧
    hits ⊆+ vDB (self w) ∧
    StronglySorted (closer distance query) hits ∧
    Forall2 (λ d r, metadata d !! id_key (self w) = Some r.1) hits results ∧
    (top_k = 0 → results = []).
Proof.
  intros Hl. destruct (search_spec query top_k w Hl) as (results & Hrun & Hall).
  exists results, (nearestDocuments distance query top_k (vDB (self w))).
  pose proof (results_ids _ _ _ Hall) as Hids.
  pose proof (nearestNeighbors_documents query top_k w Hl) as Hdocs.
  assert (Hlen : length results ≤ top_k).
  { rewrite <- (Forall2_length _ _ _ Hall), <- (Forall2_length _ _ _ Hdocs).
    apply nearestDocuments_length. }
  split; [done|].
  split; [done|].
  split; [rewrite Hids; apply nearestNeighbors_NoDup, Hl|].
  split.
  { intros id content Hin.
    apply list_elem_of_lookup in Hin as [j Hj].
    destruct (Forall2_lookup_r _ _ _ _ _ Hall Hj) as (id' & Hid' & Heq & Hget).
    simpl in Heq. subst id'. split; [|done].
    apply linked_lookup; [done|]. by exists content. }
  split; [apply nearestDocuments_submseteq|].
  split; [apply nearestDocuments_sorted|].
  split.
  { rewrite <- Hids in Hdocs. by apply Forall2_fmap_r in Hdocs. }
  intros ->. apply nil_length_inv. lia.
Qed.

(** C2: [bind_data] on linked stores that hold a text and an image, as
    those of every constructed loader do, files the summary of the [i]-th
    content in a document of its own, under an identifier that the
    content store maps to that content; whenever the similarity search
    returns that identifier for a query, [search] succeeds and returns the
    identifier paired with the content as indexed, not with the summary;
    and when no other document is as close to the query as that summary,
    the pair comes first. *)
Theorem C2_search_returns_original_content w i summary content :
  linked uuid4 w →
  stocked (self w) →
  summaries_of (self w) !! i = Some summary →
  contents_of (self w) !! i = Some content →
  ∃ w' id,
    bind_data uuid4 empty_batch_error w = (Ok tt, w') ∧
    vDB (self w') !! (length (vDB (self w)) + i)
    = Some (mkDocument summary {[ id_key (self w) := id ]}) ∧
    docDB (self w') !! id = Some content ∧
    (∀ query top_k,
       id ∈ nearestNeighbors distance (id_key (self w')) query top_k (vDB (self w')) →
       ∃ results,
         search distance query top_k w' = (Ok results, w') ∧
         (id, content) ∈ results) ∧
    (∀ query top_k,
       0 < top_k →
       (∀ d', d' ∈ vDB (self w') →
              closer distance query d' (mkDocument summary {[ id_key (self w) := id ]}) →
              d' = mkDocument summary {[ id_key (self w) := id ]}) →
       ∃ rest,
         search distance query top_k w' = (Ok ((id, content) :: rest), w')).
Proof.
  intros Hl Hst Hsummary Hcontent.
  pose proof (lookup_lt_Some _ _ _ Hcontent) as Hi.
  exists (bound uuid4 w), (uuid4 (uuid_draws w + i)).
  assert (Hid : next_ids uuid4 w (length (contents_of (self w))) !! i
                = Some (uuid4 (uuid_draws w + i))) by by apply next_ids_lookup.
  assert (Hstored : docDB (self (bound uuid4 w)) !! uuid4 (uuid_draws w + i)
                    = Some content).
  { simpl. apply store_all_lookup.
    - rewrite new_pairs_keys. apply next_ids_NoDup, uuid4_inj.
    - unfold new_pairs. apply list_elem_of_lookup. exists i.
      rewrite lookup_zip_with, Hid. simpl. by rewrite Hcontent. }
  assert (Hdoc : vDB (self (bound uuid4 w)) !! (length (vDB (self w)) + i)
                 = Some (mkDocument summary
                           {[ id_key (self w) := uuid4 (uuid_draws w + i) ]})).
  { simpl. rewrite lookup_app_r by lia.
    replace (length (vDB (self w)) + i - length (vDB (self w))) with i by lia.
    by apply documents_lookup. }
  assert (Hsame : ∀ r : string * Stored,
            r.1 = uuid4 (uuid_draws w + i) →
            docDB (self (bound uuid4 w)) !! uuid4 (uuid_draws w + i) = Some r.2 →
            r = (uuid4 (uuid_draws w + i), content)).
  { intros [id' content'] Hid' Hget. cbn [fst snd] in Hid', Hget. subst id'.
    f_equal. apply (inj Some).
    transitivity (docDB (self (bound uuid4 w)) !! uuid4 (uuid_draws w + i));
      [symmetry; exact Hget|exact Hstored]. }
  split; [apply bind_data_spec; [apply Hl|done]|].
  split; [exact Hdoc|].
  split; [done|].
  split.
  - intros query top_k Hhit.
    destruct (search_spec query top_k (bound uuid4 w)) as (results & Hrun & Hall).
    { by apply bound_linked. }
    exists results. split; [done|].
    apply list_elem_of_lookup in Hhit as [j Hj].
    destruct (Forall2_lookup_l _ _ _ _ _ Hall Hj) as (r & Hr & Hfst & Hget).
    rewrite <- (Hsame r Hfst Hget).
    apply list_elem_of_lookup. by exists j.
  - intros query top_k Hk Hclosest.
    destruct (search_spec query top_k (bound uuid4 w)) as (results & Hrun & Hall).
    { by apply bound_linked. }
    destruct (nearestDocuments_first query top_k (vDB (self (bound uuid4 w)))
                (mkDocument summary {[ id_key (self w) := uuid4 (uuid_draws w + i) ]})
                Hk) as [rest Hrest].
    { apply list_elem_of_lookup. eexists. exact Hdoc. }
    { exact Hclosest. }
    unfold nearestNeighbors in Hall. rewrite Hrest in Hall.
    cbn [omap list_omap metadata] in Hall.
    change (id_key (self (bound uuid4 w))) with (id_key (self w)) in Hall.
    rewrite lookup_singleton_eq in Hall.
    apply Forall2_cons_inv_l in Hall as (r & results' & [Hfst Hget] & _ & ->).
    exists results'. by rewrite <- (Hsame r Hfst Hget).
Qed.

(** C6: when [os.getenv] finds one of the two keys missing (or empty),
    [__init__] raises [ValueError] at once: nothing is partitioned, no
    model is called, no identifier is drawn, and of the object only
    [pdf_path] is assigned, so its two stores are as they were. *)
Theorem C6_missing_key_fails_before_any_work path w0 :
  py_not (environ w0 !! "TOGETHER_API_KEY") = true ∨
  py_not (environ w0 !! "GOOGLE_API_KEY") = true →
  __init__ partition_pdf text_llm vision_llm uuid4 empty_batch_error path w0
  = (Raise (ValueError (missing_key_message w0)),
     mkWorld (environ w0) (uuid_draws w0) (llm_calls w0) (events w0)
       (collection w0) (set_pdf_path path (self w0))).
Proof.
  intros Hmissing. apply init_unconfigured.
  intros [Htogether Hgoogle]. destruct Hmissing; congruence.
Qed.

(** C5, as the code has it: the summaries are not validated.  With both
    keys set and an image embedded in the document (without one the
    vector store refuses the empty batch of the images), the constructor
    returns whatever strings the models reply, and the documents it adds
    to the summary collection hold the replies as they came, empty ones
    too: first those for the texts, then those for the tables, then those
    for the images. *)
Theorem C5_summaries_stored_as_returned path w0 :
  configured w0 →
  images_of (partition_pdf path) ≠ [] →
  ∃ w,
    new_PDFLoader partition_pdf text_llm vision_llm uuid4 empty_batch_error path w0
    = (Ok tt, w) ∧
    page_content <$> drop (length (collection w0)) (vDB (self w))
    = text_replies text_llm (llm_calls w0) (texts (self w))
      ++ text_replies text_llm (llm_calls w0 + length (texts (self w)))
           (tables (self w))
      ++ image_replies vision_llm
           (llm_calls w0 + length (texts (self w)) + length (tables (self w)))
           (images (self w)).
Proof.
  intros Hconf Himages. eexists. split; [by apply new_PDFLoader_spec|].
  cbn [self bound vDB set_docDB set_vDB].
  change (vDB (self (prepared partition_pdf text_llm vision_llm path w0)))
    with (collection w0).
  rewrite drop_app_length.
  unfold new_documents. rewrite documents_contents; [done|].
  rewrite next_ids_length. apply summaries_of_length, prepared_aligned.
Qed.

(** C7, as the code has it: with both keys set the constructor calls the
    models one chunk at a time, texts first, then tables, then images; a
    pause of half a second comes right before each text call whose number
    is a multiple of ten; the image calls are not counted and no pause
    comes among them.  This is the trace however the constructor ends, and
    it returns when an image is embedded in the document. *)
Theorem C7_pause_before_every_tenth_text_call path w0 :
  configured w0 →
  ∃ r w table_part,
    new_PDFLoader partition_pdf text_llm vision_llm uuid4 empty_batch_error path w0
    = (r, w) ∧
    filter (λ e, is_timing e) (events w)
    = filter (λ e, is_timing e) (events w0)
      ++ text_schedule (filter (λ c, is_text c) (partition_pdf path))
      ++ table_part
      ++ image_loop_events (images_of (partition_pdf path)) ∧
    filter (λ e, is_call e) table_part
    = (λ c, EvInvokeText (summary_prompt (text c)))
        <$> filter (λ c, is_table c) (partition_pdf path) ∧
    (images_of (partition_pdf path) ≠ [] → r = Ok tt).
Proof.
  intros Hconf.
  destruct (new_PDFLoader partition_pdf text_llm vision_llm uuid4
              empty_batch_error path w0) as [r w] eqn:Hrun.
  exists r, w. eexists. split; [done|].
  assert (Hevents : events w
                    = events (prepared partition_pdf text_llm vision_llm path w0)).
  { rewrite new_PDFLoader_prepared in Hrun by done.
    by apply bind_data_frame in Hrun as (? & _); [|apply prepared_aligned]. }
  split; [|split; [apply table_calls|]].
  - rewrite Hevents. cbn [events prepared].
    rewrite !filter_app.
    rewrite text_loop_timing, table_loop_timing, image_loop_timing.
    rewrite !filter_cons_False by (simpl; intros []).
    rewrite filter_nil, !app_nil_l. done.
  - intros Himages. rewrite new_PDFLoader_spec in Hrun by done. congruence.
Qed.

(** Among documents that carry pairwise distinct identifiers, the one at
    position [k] is the only one that carries its identifier. *)
Lemma documents_position key summaries ids k k' d d' id :
  NoDup ids → length summaries = length ids →
  documents key summaries ids !! k = Some d → metadata d !! key = Some id →
  documents key summaries ids !! k' = Some d' → metadata d' !! key = Some id →
  k' = k.
Proof.
  intros Hnodup Hlen Hk Hd Hk' Hd'.
  assert (Htotal : Forall (λ d, is_Some (metadata d !! key))
                          (documents key summaries ids)).
  { eapply Forall_impl; [apply documents_meta|].
    simpl. intros d0 [id0 ->]. rewrite lookup_singleton_eq. by eexists. }
  rewrite <- (documents_ids key summaries ids) in Hnodup by done.
  eapply NoDup_lookup; [exact Hnodup| |].
  - eapply (omap_lookup_total _ _ k' d'); eauto.
  - eapply (omap_lookup_total _ _ k d); eauto.
Qed.

(** C10: the images of the loader are the payloads of the image
    sub-elements of the composite chunks, in document order; when there is
    one, the constructor returns, and each image has a document of its own
    among those the constructor adds to the summary collection, after
    those of the texts and the tables, holding the reply of the vision
    model; the identifier of that document, which no other of these
    documents carries, maps to the payload in the content store.  [n0] is
    the number of documents the collection held before. *)
Theorem C10_images_indexed_separately path w0 :
  configured w0 →
  images_of (partition_pdf path) ≠ [] →
  ∃ w,
    new_PDFLoader partition_pdf text_llm vision_llm uuid4 empty_batch_error path w0
    = (Ok tt, w) ∧
    images (self w) = images_of (partition_pdf path) ∧
    ∀ j b, images (self w) !! j = Some b →
      let n0 := length (collection w0) in
      let k := length (texts (self w)) + length (tables (self w)) + j in
      let id := uuid4 (uuid_draws w0 + k) in
      vDB (self w) !! (n0 + k)
      = Some (mkDocument (vision_llm (llm_calls w0 + k) image_instruction (image_url b))
                {[ "doc_id" := id ]}) ∧
      docDB (self w) !! id = Some (StoredImage b) ∧
      ∀ k' d', vDB (self w) !! (n0 + k') = Some d' →
               metadata d' !! "doc_id" = Some id → k' = k.
Proof.
  intros Hconf Himages.
  set (P := prepared partition_pdf text_llm vision_llm path w0).
  exists (bound uuid4 P). split; [by apply new_PDFLoader_spec|].
  split; [done|].
  intros j b Hj n0 k id.
  assert (Hview : vDB (self (bound uuid4 P)) = collection w0 ++ new_documents uuid4 P)
    by done.
  assert (Hk : k < length (contents_of (self P))).
  { rewrite contents_of_length. apply lookup_lt_Some in Hj.
    subst k. simpl in *. lia. }
  assert (Hid : next_ids uuid4 P (length (contents_of (self P))) !! k = Some id)
    by by apply next_ids_lookup.
  assert (Hdoc : new_documents uuid4 P !! k
    = Some (mkDocument (vision_llm (llm_calls w0 + k) image_instruction (image_url b))
              {[ "doc_id" := id ]})).
  { apply documents_lookup; [|done].
    unfold summaries_of. cbn [self P prepared text_summaries table_summaries
                              image_summaries].
    rewrite lookup_app_r; rewrite text_replies_length; [|subst k; simpl; lia].
    rewrite lookup_app_r; rewrite text_replies_length; [|subst k; simpl; lia].
    subst k. cbn [self bound texts tables set_docDB set_vDB P prepared].
    match goal with
    | |- _ !! ?n = _ => replace n with j by lia
    end.
    rewrite (image_replies_lookup _ _ _ j b) by exact Hj.
    f_equal. f_equal. lia. }
  split.
  { rewrite Hview, lookup_app_r by (subst n0; lia).
    replace (n0 + k - length (collection w0)) with k by (subst n0; lia).
    exact Hdoc. }
  split.
  - cbn [self bound docDB set_docDB set_vDB]. apply store_all_lookup.
    + rewrite new_pairs_keys. apply next_ids_NoDup, uuid4_inj.
    + unfold new_pairs. apply list_elem_of_lookup. exists k.
      rewrite lookup_zip_with, Hid. simpl.
      unfold contents_of. cbn [self P prepared texts tables images].
      rewrite lookup_app_r; rewrite length_fmap; [|subst k; simpl; lia].
      rewrite lookup_app_r; rewrite length_fmap; [|subst k; simpl; lia].
      subst k. cbn [self bound texts tables set_docDB set_vDB P prepared].
      match goal with
      | |- _ !! ?n ≫= _ = _ => replace n with j by lia
      end.
      rewrite list_lookup_fmap.
      cbn [self bound images set_docDB set_vDB P prepared] in Hj.
      by rewrite Hj.
  - intros k' d' Hk' Hd'.
    rewrite Hview, lookup_app_r in Hk' by (subst n0; lia).
    replace (n0 + k' - length (collection w0)) with k' in Hk' by (subst n0; lia).
    eapply (documents_position "doc_id" (summaries_of (self P))
              (next_ids uuid4 P (length (contents_of (self P)))) k k');
      [apply next_ids_NoDup, uuid4_inj| |exact Hdoc| |exact Hk'|exact Hd'].
    + rewrite next_ids_length. apply summaries_of_length, prepared_aligned.
    + simpl. by rewrite lookup_singleton_eq.
Qed.

End Claims.

(** C9: a chunk whose type name contains neither [Table] nor
    [CompositeElement] is dropped.  The constructor ends the same way, with
    the same trace, the same draws and the same object but for the
    attribute [chunks], as on the partition without that chunk; the chunk
    is neither among the texts nor among the tables, and no entry of the
    content store holds it. *)
Theorem C9_other_kinds_are_dropped
    (partition_with partition_without : string → list Chunk)
    (text_llm : nat → string → string)
    (vision_llm : nat → string → string → string)
    (uuid4 : nat → string) (empty_batch_error : string)
    path before c after w0 :
  partition_with path = before ++ c :: after →
  partition_without path = before ++ after →
  is_table c = false → is_text c = false →
  let run_with :=
    new_PDFLoader partition_with text_llm vision_llm uuid4 empty_batch_error
      path w0 in
  let run_without :=
    new_PDFLoader partition_without text_llm vision_llm uuid4 empty_batch_error
      path w0 in
  fst run_with = fst run_without ∧
  events (snd run_with) = events (snd run_without) ∧
  uuid_draws (snd run_with) = uuid_draws (snd run_without) ∧
  llm_calls (snd run_with) = llm_calls (snd run_without) ∧
  set_chunks [] (self (snd run_with)) = set_chunks [] (self (snd run_without)) ∧
  (c ∉ texts (self (snd run_with))) ∧
  (c ∉ tables (self (snd run_with))) ∧
  ∀ id, docDB (self (snd run_with)) !! id ≠ Some (StoredChunk c).
Proof.
  intros Hwith Hwithout Htable Htext run_with run_without.
  assert (Htexts : filter (λ c, is_text c) (partition_with path)
                   = filter (λ c, is_text c) (partition_without path)).
  { rewrite Hwith, Hwithout. apply filter_skip. intros H. by rewrite Htext in H. }
  assert (Htables : filter (λ c, is_table c) (partition_with path)
                    = filter (λ c, is_table c) (partition_without path)).
  { rewrite Hwith, Hwithout. apply filter_skip. intros H. by rewrite Htable in H. }
  assert (Himages : images_of (partition_with path)
                    = images_of (partition_without path)).
  { rewrite Hwith, Hwithout. by apply images_of_skip. }
  assert (Hno_text : c ∉ filter (λ c, is_text c) (partition_with path)).
  { rewrite list_elem_of_filter, Htext. simpl. tauto. }
  assert (Hno_table : c ∉ filter (λ c, is_table c) (partition_with path)).
  { rewrite list_elem_of_filter, Htable. simpl. tauto. }
  subst run_with run_without.
  destruct (decide (configured w0)) as [Hconf|Hconf].
  - rewrite !new_PDFLoader_prepared by done.
    set (P := prepared partition_without text_llm vision_llm path w0).
    assert (HP : prepared partition_with text_llm vision_llm path w0
                 = with_self (set_chunks (partition_with path)) P).
    { unfold P, prepared, with_self, set_chunks. tidy.
      by rewrite Htexts, Htables, Himages. }
    rewrite HP, bind_data_chunks by apply prepared_aligned.
    destruct (bind_data uuid4 empty_batch_error P) as [r W] eqn:Hrun.
    apply bind_data_frame in Hrun as (_ & _ & _ & Hobject & Hvalues);
      [|apply prepared_aligned].
    cbn [fst snd with_self self events uuid_draws llm_calls texts tables docDB
         set_chunks].
    assert (HW : texts (self W) = filter (λ c, is_text c) (partition_with path) ∧
                 tables (self W) = filter (λ c, is_table c) (partition_with path)).
    { split.
      - apply (f_equal texts) in Hobject. rewrite Htexts. exact Hobject.
      - apply (f_equal tables) in Hobject. rewrite Htables. exact Hobject. }
    destruct HW as [-> ->].
    repeat split; try done.
    intros id Hid. apply Hvalues in Hid as [Hid|Hid].
    + change (docDB (self P)) with (∅ : gmap string Stored) in Hid.
      by rewrite lookup_empty in Hid.
    + unfold contents_of in Hid. cbn [self P prepared texts tables images] in Hid.
      rewrite <- Htexts, <- Htables in Hid.
      rewrite !elem_of_app, !list_elem_of_fmap in Hid.
      destruct Hid as [(c' & [= <-] & Hc')|[(c' & [= <-] & Hc')|(b & [=] & _)]];
        done.
  - rewrite !new_PDFLoader_unconfigured by done.
    cbn [fst snd self events uuid_draws llm_calls texts tables docDB
         set_pdf_path fresh_object].
    repeat split; try done; apply not_elem_of_nil.
Qed.

(** ** Runs on the fixture *)

Lemma fixture_uuid4_inj : Inj (=) (=) Fixture.uuid4.
Proof. unfold Fixture.uuid4. apply _. Qed.

Lemma fixture_configured : configured Fixture.start.
Proof. split; reflexivity. Qed.

Lemma fixture_loaded :
  new_PDFLoader Fixture.partition_pdf Fixture.text_llm Fixture.vision_llm
    Fixture.uuid4 Fixture.empty_batch_error "report.pdf" Fixture.start
  = (Ok tt, Fixture.loaded).
Proof. vm_compute. reflexivity. Qed.

Lemma fixture_reachable :
  reachable Fixture.partition_pdf Fixture.text_llm Fixture.vision_llm
    Fixture.uuid4 Fixture.empty_batch_error Fixture.loaded.
Proof. eapply reachable_new. apply fixture_loaded. Qed.

Lemma fixture_loaded_linked : linked Fixture.uuid4 Fixture.loaded.
Proof.
  eapply first_loader_linked;
    [apply fixture_uuid4_inj| |apply fixture_loaded]; reflexivity.
Qed.

Lemma fixture_loaded_stocked : stocked (self Fixture.loaded).
Proof. split; vm_compute; discriminate. Qed.

Lemma fixture_report_images :
  images_of (Fixture.partition_pdf "report.pdf") ≠ [].
Proof. vm_compute. discriminate. Qed.

(** Twenty texts: the first loop pauses before the tenth and the twentieth
    call, and the trace never has eleven calls in a row. *)
Example twenty_texts_paused :
  let run := new_PDFLoader Fixture.partition_texts Fixture.text_llm
               Fixture.vision_llm Fixture.uuid4 Fixture.empty_batch_error
               "texts.pdf" Fixture.start in
  fst run = Ok tt ∧
  length (filter (λ e, is_sleep e) (events (snd run))) = 2 ∧
  paused_every_ten 0 (events (snd run)) = true.
Proof. vm_compute. done. Qed.

(** The scenario of the report: four chunks, of which the heading is
    dropped and the image inside the first text is indexed on its own. *)
Example report_indexed :
  doc_ids_of (self Fixture.loaded) = ["0"; "1"; "2"; "3"] ∧
  page_content <$> vDB (self Fixture.loaded)
  = ["text summary 0"; "text summary 1"; "text summary 2"; "image summary 3"] ∧
  docDB (self Fixture.loaded) !! "1" = Some (StoredChunk Fixture.headcount) ∧
  docDB (self Fixture.loaded) !! "3" = Some (StoredImage "iVBORw0KGgo=").
Proof. vm_compute. done. Qed.

(** Two texts summarised by their own prompts: a search for a word of the
    second text returns the second chunk itself, first. *)
Example search_ranks_matching_text_first :
  let run := new_PDFLoader Fixture.partition_two_texts Fixture.echo_llm
               Fixture.vision_llm Fixture.uuid4 Fixture.empty_batch_error
               "report.pdf" Fixture.start in
  fst run = Ok tt ∧
  fst (search Fixture.keyword_distance "Headcount" 1 (snd run))
  = Ok [("1", StoredChunk Fixture.headcount)] ∧
  fst (search Fixture.keyword_distance "Headcount" 0 (snd run)) = Ok [].
Proof. vm_compute. done. Qed.

(** C1: the stores of a second loader are out of step.  [Chroma] hands
    the second loader the collection of the process, with the four
    documents of the first loader in it, and [InMemoryStore] a content
    store of its own: after the constructor the summary collection has
    eight documents and the content store four keys, and the identifiers
    of the first four documents have no entry in the content store. *)
Theorem C1_second_loader_out_of_step :
  new_PDFLoader Fixture.partition_pdf Fixture.text_llm Fixture.vision_llm
    Fixture.uuid4 Fixture.empty_batch_error "report.pdf" Fixture.loaded
  = (Ok tt, Fixture.loaded_again) ∧
  reachable Fixture.partition_pdf Fixture.text_llm Fixture.vision_llm
    Fixture.uuid4 Fixture.empty_batch_error Fixture.loaded_again ∧
  doc_ids_of (self Fixture.loaded_again)
  = ["0"; "1"; "2"; "3"; "4"; "5"; "6"; "7"] ∧
  length (vDB (self Fixture.loaded_again)) = 8 ∧
  size (docDB (self Fixture.loaded_again)) = 4 ∧
  docDB (self Fixture.loaded_again) !! "0" = None ∧
  docDB (self Fixture.loaded_again) !! "4" = Some (StoredChunk Fixture.revenue).
Proof.
  assert (Hrun : new_PDFLoader Fixture.partition_pdf Fixture.text_llm
                   Fixture.vision_llm Fixture.uuid4 Fixture.empty_batch_error
                   "report.pdf" Fixture.loaded
                 = (Ok tt, Fixture.loaded_again)) by (vm_compute; reflexivity).
  split; [exact Hrun|].
  split; [eapply reachable_new; exact Hrun|].
  clear Hrun. vm_compute. repeat split.
Qed.

(** C3: with nothing to index the index operation does not return.  The
    partitioner finds no chunk, so there is no text, no table and no
    image; [bind_data] hands the empty list of documents to the vector
    store, which refuses it, and the constructor ends with that
    [ValueError], both stores empty as they were. *)
Theorem C3_empty_input_is_refused :
  let run := new_PDFLoader Fixture.partition_blank Fixture.text_llm
               Fixture.vision_llm Fixture.uuid4 Fixture.empty_batch_error
               "blank.pdf" Fixture.start in
  contents_of (self (snd run)) = [] ∧
  fst run = Raise (ValueError Fixture.empty_batch_error) ∧
  vDB (self (snd run)) = [] ∧
  docDB (self (snd run)) = ∅ ∧
  collection (snd run) = [].
Proof. vm_compute. done. Qed.

Lemma C2_witness :
  summaries_of (self Fixture.loaded) !! 1 = Some "text summary 1" ∧
  contents_of (self Fixture.loaded) !! 1 = Some (StoredChunk Fixture.headcount) ∧
  ∃ w' id,
    bind_data Fixture.uuid4 Fixture.empty_batch_error Fixture.loaded = (Ok tt, w') ∧
    vDB (self w') !! (length (vDB (self Fixture.loaded)) + 1)
    = Some (mkDocument "text summary 1" {[ id_key (self Fixture.loaded) := id ]}) ∧
    docDB (self w') !! id = Some (StoredChunk Fixture.headcount) ∧
    (∀ query top_k,
       id ∈ nearestNeighbors Fixture.distance (id_key (self w')) query top_k
              (vDB (self w')) →
       ∃ results,
         search Fixture.distance query top_k w' = (Ok results, w') ∧
         (id, StoredChunk Fixture.headcount) ∈ results) ∧
    (∀ query top_k,
       0 < top_k →
       (∀ d', d' ∈ vDB (self w') →
              closer Fixture.distance query d'
                (mkDocument "text summary 1" {[ id_key (self Fixture.loaded) := id ]}) →
              d' = mkDocument "text summary 1" {[ id_key (self Fixture.loaded) := id ]}) →
       ∃ rest,
         search Fixture.distance query top_k w'
         = (Ok ((id, StoredChunk Fixture.headcount) :: rest), w')).
Proof.
  split; [vm_compute; reflexivity|]. split; [vm_compute; reflexivity|].
  apply (C2_search_returns_original_content Fixture.uuid4
           Fixture.empty_batch_error Fixture.distance
           fixture_uuid4_inj Fixture.loaded 1 "text summary 1"
           (StoredChunk Fixture.headcount) fixture_loaded_linked
           fixture_loaded_stocked);
    vm_compute; reflexivity.
Defined.

Lemma C4_witness :
  linked Fixture.uuid4 Fixture.loaded ∧
  stocked (self Fixture.loaded) ∧
  ∃ w1 w2 ids1 ids2,
    bind_data Fixture.uuid4 Fixture.empty_batch_error Fixture.loaded = (Ok tt, w1) ∧
    bind_data Fixture.uuid4 Fixture.empty_batch_error w1 = (Ok tt, w2) ∧
    contents_of (self w1) = contents_of (self Fixture.loaded) ∧
    doc_ids_of (self w1) = doc_ids_of (self Fixture.loaded) ++ ids1 ∧
    doc_ids_of (self w2) = doc_ids_of (self Fixture.loaded) ++ ids1 ++ ids2 ∧
    length ids1 = length (contents_of (self Fixture.loaded)) ∧
    length ids2 = length (contents_of (self Fixture.loaded)) ∧
    NoDup (doc_ids_of (self Fixture.loaded) ++ ids1 ++ ids2) ∧
    (∀ id, id ∈ ids1 → id ∉ ids2) ∧
    vDB (self Fixture.loaded) `prefix_of` vDB (self w1) ∧
    vDB (self w1) `prefix_of` vDB (self w2) ∧
    docDB (self Fixture.loaded) ⊆ docDB (self w1) ∧
    docDB (self w1) ⊆ docDB (self w2) ∧
    size (docDB (self w2))
    = size (docDB (self Fixture.loaded)) + 2 * length (contents_of (self Fixture.loaded)).
Proof.
  split; [apply fixture_loaded_linked|].
  split; [apply fixture_loaded_stocked|].
  apply (C4_identifiers_pairwise_distinct Fixture.uuid4 Fixture.empty_batch_error
           fixture_uuid4_inj Fixture.loaded fixture_loaded_linked
           fixture_loaded_stocked).
Defined.

(** C5 as claimed fails: the text model answers every prompt with the
    empty string, and the constructor succeeds and files the empty
    summary. *)
Lemma C5_counterexample :
  let run := new_PDFLoader Fixture.partition_pdf Fixture.silent_llm
               Fixture.vision_llm Fixture.uuid4 Fixture.empty_batch_error
               "report.pdf" Fixture.start in
  Fixture.silent_llm 0 (summary_prompt (text Fixture.revenue)) = "" ∧
  fst run = Ok tt ∧
  vDB (self (snd run)) !! 0 = Some (mkDocument "" {[ "doc_id" := "0" ]}).
Proof. vm_compute. done. Qed.

Lemma C5_witness :
  configured Fixture.start ∧
  images_of (Fixture.partition_pdf "report.pdf") ≠ [] ∧
  ∃ w,
    new_PDFLoader Fixture.partition_pdf Fixture.silent_llm Fixture.vision_llm
      Fixture.uuid4 Fixture.empty_batch_error "report.pdf" Fixture.start
    = (Ok tt, w) ∧
    page_content <$> drop (length (collection Fixture.start)) (vDB (self w))
    = text_replies Fixture.silent_llm (llm_calls Fixture.start) (texts (self w))
      ++ text_replies Fixture.silent_llm
           (llm_calls Fixture.start + length (texts (self w))) (tables (self w))
      ++ image_replies Fixture.vision_llm
           (llm_calls Fixture.start + length (texts (self w)) + length (tables (self w)))
           (images (self w)).
Proof.
  split; [apply fixture_configured|].
  split; [apply fixture_report_images|].
  apply (C5_summaries_stored_as_returned Fixture.partition_pdf Fixture.silent_llm
           Fixture.vision_llm Fixture.uuid4 Fixture.empty_batch_error
           "report.pdf" Fixture.start fixture_configured fixture_report_images).
Defined.

Lemma C6_witness :
  py_not (environ Fixture.start_without_google !! "GOOGLE_API_KEY") = true ∧
  __init__ Fixture.partition_pdf Fixture.text_llm Fixture.vision_llm Fixture.uuid4
    Fixture.empty_batch_error "report.pdf" Fixture.start_without_google
  = (Raise (ValueError "GOOGLE_API_KEY not found in environment variables"),
     mkWorld (environ Fixture.start_without_google) 0 0 [] []
       (set_pdf_path "report.pdf" fresh_object)).
Proof.
  split; [reflexivity|].
  apply (C6_missing_key_fails_before_any_work Fixture.partition_pdf Fixture.text_llm
           Fixture.vision_llm Fixture.uuid4 Fixture.empty_batch_error
           "report.pdf" Fixture.start_without_google).
  right. reflexivity.
Defined.

(** C7 as claimed fails: a text with eleven figures is summarised by
    twelve calls, one for the text and eleven for the figures, with no
    pause anywhere. *)
Lemma C7_counterexample :
  let run := new_PDFLoader Fixture.partition_gallery Fixture.text_llm
               Fixture.vision_llm Fixture.uuid4 Fixture.empty_batch_error
               "gallery.pdf" Fixture.start in
  fst run = Ok tt ∧
  length (filter (λ e, is_call e) (events (snd run))) = 12 ∧
  filter (λ e, is_sleep e) (events (snd run)) = [] ∧
  paused_every_ten 0 (events (snd run)) = false.
Proof. vm_compute. done. Qed.

Lemma C7_witness :
  configured Fixture.start ∧
  ∃ r w table_part,
    new_PDFLoader Fixture.partition_texts Fixture.text_llm Fixture.vision_llm
      Fixture.uuid4 Fixture.empty_batch_error "texts.pdf" Fixture.start
    = (r, w) ∧
    filter (λ e, is_timing e) (events w)
    = filter (λ e, is_timing e) (events Fixture.start)
      ++ text_schedule (filter (λ c, is_text c) (Fixture.partition_texts "texts.pdf"))
      ++ table_part
      ++ image_loop_events (images_of (Fixture.partition_texts "texts.pdf")) ∧
    filter (λ e, is_call e) table_part
    = (λ c, EvInvokeText (summary_prompt (text c)))
        <$> filter (λ c, is_table c) (Fixture.partition_texts "texts.pdf") ∧
    (images_of (Fixture.partition_texts "texts.pdf") ≠ [] → r = Ok tt).
Proof.
  split; [apply fixture_configured|].
  apply (C7_pause_before_every_tenth_text_call Fixture.partition_texts Fixture.text_llm
           Fixture.vision_llm Fixture.uuid4 Fixture.empty_batch_error
           "texts.pdf" Fixture.start fixture_configured).
Defined.

Lemma C8_witness :
  linked Fixture.uuid4 Fixture.loaded ∧
  ∃ results hits,
    search Fixture.distance "headcount" 2 Fixture.loaded = (Ok results, Fixture.loaded) ∧
    length results ≤ 2 ∧
    NoDup results.*1 ∧
    (∀ id content, (id, content) ∈ results →
       id ∈ doc_ids_of (self Fixture.loaded) ∧
       docDB (self Fixture.loaded) !! id = Some content) ∧
    hits ⊆+ vDB (self Fixture.loaded) ∧
    StronglySorted (closer Fixture.distance "headcount") hits ∧
    Forall2 (λ d r, metadata d !! id_key (self Fixture.loaded) = Some r.1) hits results ∧
    (2 = 0 → results = []).
Proof.
  split; [apply fixture_loaded_linked|].
  apply (C8_search_bounded_distinct_ranked Fixture.uuid4 Fixture.distance
           "headcount" 2 Fixture.loaded fixture_loaded_linked).
Defined.

Lemma C9_witness :
  is_table Fixture.heading = false ∧ is_text Fixture.heading = false ∧
  let run_with :=
    new_PDFLoader Fixture.partition_pdf Fixture.text_llm Fixture.vision_llm
      Fixture.uuid4 Fixture.empty_batch_error "report.pdf" Fixture.start in
  let run_without :=
    new_PDFLoader Fixture.partition_without_heading Fixture.text_llm
      Fixture.vision_llm Fixture.uuid4 Fixture.empty_batch_error "report.pdf"
      Fixture.start in
  fst run_with = fst run_without ∧
  events (snd run_with) = events (snd run_without) ∧
  uuid_draws (snd run_with) = uuid_draws (snd run_without) ∧
  llm_calls (snd run_with) = llm_calls (snd run_without) ∧
  set_chunks [] (self (snd run_with)) = set_chunks [] (self (snd run_without)) ∧
  (Fixture.heading ∉ texts (self (snd run_with))) ∧
  (Fixture.heading ∉ tables (self (snd run_with))) ∧
  ∀ id, docDB (self (snd run_with)) !! id ≠ Some (StoredChunk Fixture.heading).
Proof.
  split; [reflexivity|]. split; [reflexivity|].
  apply (C9_other_kinds_are_dropped Fixture.partition_pdf
           Fixture.partition_without_heading Fixture.text_llm Fixture.vision_llm
           Fixture.uuid4 Fixture.empty_batch_error "report.pdf"
           [Fixture.revenue] Fixture.heading
           [Fixture.quarter; Fixture.headcount] Fixture.start);
    reflexivity.
Defined.

Lemma C10_witness :
  configured Fixture.start ∧
  images_of (Fixture.partition_pdf "report.pdf") ≠ [] ∧
  ∃ w,
    new_PDFLoader Fixture.partition_pdf Fixture.text_llm Fixture.vision_llm
      Fixture.uuid4 Fixture.empty_batch_error "report.pdf" Fixture.start
    = (Ok tt, w) ∧
    images (self w) = images_of (Fixture.partition_pdf "report.pdf") ∧
    ∀ j b, images (self w) !! j = Some b →
      let n0 := length (collection Fixture.start) in
      let k := length (texts (self w)) + length (tables (self w)) + j in
      let id := Fixture.uuid4 (uuid_draws Fixture.start + k) in
      vDB (self w) !! (n0 + k)
      = Some (mkDocument
                (Fixture.vision_llm (llm_calls Fixture.start + k)
                   image_instruction (image_url b))
                {[ "doc_id" := id ]}) ∧
      docDB (self w) !! id = Some (StoredImage b) ∧
      ∀ k' d', vDB (self w) !! (n0 + k') = Some d' →
               metadata d' !! "doc_id" = Some id → k' = k.
Proof.
  split; [apply fixture_configured|].
  split; [apply fixture_report_images|].
  apply (C10_images_indexed_separately Fixture.partition_pdf Fixture.text_llm
           Fixture.vision_llm Fixture.uuid4 Fixture.empty_batch_error
           fixture_uuid4_inj "report.pdf" Fixture.start fixture_configured
           fixture_report_images).
Defined.

(** ** Further properties of the class *)

Section Further.

Variable partition_pdf : string → list Chunk.
Variable text_llm : nat → string → string.
Variable vision_llm : nat → string → string → string.
Variable uuid4 : nat → string.
Variable empty_batch_error : string.

(** X1: with more text summaries than texts [bind_data] raises
    [IndexError] in its first comprehension: the identifiers for the texts
    are drawn and lost, and neither store is touched. *)
Theorem X1_surplus_text_summary_raises w :
  length (texts (self w)) < length (text_summaries (self w)) →
  bind_data uuid4 empty_batch_error w
  = (Raise IndexError,
     mkWorld (environ w) (uuid_draws w + length (texts (self w)))
       (llm_calls w) (events w) (collection w) (self w)).
Proof.
  intros Hlen. unfold bind_data. rewrite bind_get_self.
  step by apply new_ids_spec.
  erewrite bind_Raise; [done|].
  apply make_documents_raise. by rewrite length_fmap, length_seq.
Qed.

(** X2: with a summary for some of the texts and none too many, and with
    more table summaries than tables (and a table at all), [bind_data]
    raises [IndexError] after the texts were indexed: both stores keep the
    batch of the texts, and the identifiers drawn for the tables are
    lost. *)
Theorem X2_surplus_table_summary_raises_midway w :
  text_summaries (self w) ≠ [] →
  length (text_summaries (self w)) ≤ length (texts (self w)) →
  tables (self w) ≠ [] →
  length (tables (self w)) < length (table_summaries (self w)) →
  bind_data uuid4 empty_batch_error w
  = (Raise IndexError,
     mkWorld (environ w)
       (uuid_draws w + length (texts (self w)) + length (tables (self w)))
       (llm_calls w) (events w) (collection (bound_texts uuid4 w))
       (self (bound_texts uuid4 w))).
Proof.
  intros Hts Ht Hsome Hlen. rewrite bind_data_texts by done.
  rewrite bool_decide_eq_true_2 by done.
  erewrite bind_Raise; [|by apply batch_Raise].
  unfold bound_texts, index_batch. tidy. by rewrite length_fmap.
Qed.

(** X3: without tables the table summaries are never looked at: however
    many there are, [bind_data] returns, given a summary for some of the
    texts and for some of the images and none too many, and indexes the
    texts and the images only. *)
Theorem X3_table_summaries_ignored_without_tables w :
  tables (self w) = [] →
  text_summaries (self w) ≠ [] →
  length (text_summaries (self w)) ≤ length (texts (self w)) →
  image_summaries (self w) ≠ [] →
  length (image_summaries (self w)) ≤ length (images (self w)) →
  bind_data uuid4 empty_batch_error w
  = (Ok tt,
     index_batch uuid4 (image_summaries (self w)) (StoredImage <$> images (self w))
       (bound_texts uuid4 w)).
Proof.
  intros Hnone Hts Ht His Hi.
  rewrite bind_data_batches; [|done|done|by left|done|done].
  unfold bound_images, bound_tables. rewrite Hnone. simpl.
  by rewrite index_batch_nil.
Qed.

(** X4: the images have no such guard: once the batches of the texts and
    of the tables went through, more image summaries than images, be
    there an image or none, make [bind_data] raise [IndexError] with
    texts and tables in both stores. *)
Theorem X4_surplus_image_summary_raises_at_the_end w :
  text_summaries (self w) ≠ [] →
  length (text_summaries (self w)) ≤ length (texts (self w)) →
  tables (self w) = [] ∨
  table_summaries (self w) ≠ [] ∧
  length (table_summaries (self w)) ≤ length (tables (self w)) →
  length (images (self w)) < length (image_summaries (self w)) →
  bind_data uuid4 empty_batch_error w
  = (Raise IndexError,
     mkWorld (environ w)
       (uuid_draws w + length (texts (self w)) + length (tables (self w))
        + length (images (self w)))
       (llm_calls w) (events w) (collection (bound_tables uuid4 w))
       (self (bound_tables uuid4 w))).
Proof.
  intros Hts Ht Hb Hlen. rewrite bind_data_texts by done.
  erewrite bind_Ok; [|by apply tables_block].
  rewrite batch_Raise by done.
  unfold bound_tables, bound_texts, index_batch. tidy.
  by rewrite !length_fmap.
Qed.

(** X5: with fewer summaries than contents, but one at least in every
    batch, [bind_data] returns all the same: the summary collection grows
    by the number of summaries, the content store takes an entry for every
    identifier drawn, one per content, so that contents without a summary
    are stored but cannot be found. *)
Theorem X5_missing_summaries_leave_stores_out_of_step w :
  text_summaries (self w) ≠ [] →
  length (text_summaries (self w)) ≤ length (texts (self w)) →
  tables (self w) = [] ∧ table_summaries (self w) = [] ∨
  table_summaries (self w) ≠ [] ∧
  length (table_summaries (self w)) ≤ length (tables (self w)) →
  image_summaries (self w) ≠ [] →
  length (image_summaries (self w)) ≤ length (images (self w)) →
  ∃ w',
    bind_data uuid4 empty_batch_error w = (Ok tt, w') ∧
    length (vDB (self w'))
    = length (vDB (self w)) + length (summaries_of (self w)) ∧
    dom (docDB (self w'))
    = dom (docDB (self w))
      ∪ list_to_set (next_ids uuid4 w (length (contents_of (self w)))) ∧
    uuid_draws w' = uuid_draws w + length (contents_of (self w)).
Proof.
  intros Hts Ht Hb His Hi. exists (bound_images uuid4 w).
  assert (Hb' : length (table_summaries (self w)) ≤ length (tables (self w))).
  { destruct Hb as [[_ ->]|[_ Hb]]; [simpl; lia|done]. }
  split.
  { apply bind_data_batches; try done.
    destruct Hb as [[Hb _]|Hb]; [by left|by right]. }
  unfold bound_images, bound_tables, bound_texts, index_batch. tidy.
  split; [|split].
  - rewrite !length_app, !documents_length, !next_ids_len, !length_fmap.
    unfold summaries_of. rewrite !length_app. lia.
  - rewrite !store_all_dom.
    rewrite !fst_zip by (rewrite next_ids_len, ?length_fmap; lia).
    rewrite contents_of_length, !next_ids_app.
    unfold next_ids. cbn [uuid_draws]. rewrite !length_fmap.
    rewrite !list_to_set_app_L.
    rewrite <- !(assoc_L (∪)). by rewrite !Nat.add_assoc.
  - rewrite contents_of_length, !length_fmap. lia.
Qed.

(** X6: [get_text_tables] reads [self.chunks] and changes nothing.  A
    chunk is among the texts exactly when it is a chunk whose type name
    contains [CompositeElement], among the tables exactly when its type
    name contains [Table] (a chunk with both is in both), and both lists
    keep the order of the document. *)
Theorem X6_get_text_tables_classifies_by_type_name w :
  ∃ texts tables,
    get_text_tables w = (Ok (texts, tables), w) ∧
    (∀ c, c ∈ texts ↔ c ∈ chunks (self w) ∧ is_text c = true) ∧
    (∀ c, c ∈ tables ↔ c ∈ chunks (self w) ∧ is_table c = true) ∧
    texts `sublist_of` chunks (self w) ∧
    tables `sublist_of` chunks (self w).
Proof.
  eexists. eexists. split; [apply get_text_tables_spec|].
  split; [|split; [|split]].
  - intros c. rewrite list_elem_of_filter, Is_true_true.
    split; intros [? ?]; by split.
  - intros c. rewrite list_elem_of_filter, Is_true_true.
    split; intros [? ?]; by split.
  - apply sublist_filter.
  - apply sublist_filter.
Qed.

Lemma elem_of_concat {A} (x : A) (ls : list (list A)) :
  x ∈ concat ls ↔ ∃ l, x ∈ l ∧ l ∈ ls.
Proof.
  induction ls as [|l' ls IH]; simpl.
  - split; [intros H; by apply elem_of_nil in H|].
    intros (l & _ & H). by apply elem_of_nil in H.
  - rewrite elem_of_app, IH. split.
    + intros [H|(l & Hx & Hl)].
      * exists l'. split; [done|by left].
      * exists l. split; [done|by right].
    + intros (l & Hx & Hl). apply elem_of_cons in Hl as [->|Hl].
      * by left.
      * right. by exists l.
Qed.

(** X7: [get_imagesb64] changes nothing and returns exactly the payloads
    of the sub-elements whose type name contains [Image] inside the chunks
    whose type name contains [CompositeElement]: an image that is a chunk
    of its own, or that sits inside a table, is not collected. *)
Theorem X7_get_imagesb64_collects_embedded_images w :
  ∃ imgs,
    get_imagesb64 w = (Ok imgs, w) ∧
    ∀ b, b ∈ imgs ↔
         ∃ c el, c ∈ chunks (self w) ∧ is_text c = true ∧
                 el ∈ orig_elements c ∧ is_image el = true ∧
                 image_base64 el = b.
Proof.
  eexists. split; [apply get_imagesb64_spec|].
  intros b. unfold images_of. rewrite elem_of_concat. split.
  - intros (l & Hb & Hl). apply list_elem_of_fmap in Hl as (c & -> & Hc).
    destruct (is_text c) eqn:Htext; [|by apply elem_of_nil in Hb].
    unfold embedded_images in Hb.
    apply list_elem_of_fmap in Hb as (el & -> & Hel).
    apply list_elem_of_filter in Hel as [Himage Hel].
    apply Is_true_true in Himage. by exists c, el.
  - intros (c & el & Hc & Htext & Hel & Himage & <-).
    exists (embedded_images c). split.
    + unfold embedded_images. apply list_elem_of_fmap. exists el. split; [done|].
      apply list_elem_of_filter. split; [by apply Is_true_true|done].
    + apply list_elem_of_fmap. exists c. by rewrite Htext.
Qed.

Lemma text_replies_lookup calls (l : list Chunk) i c :
  l !! i = Some c →
  text_replies text_llm calls l !! i
  = Some (text_llm (calls + i) (summary_prompt (text c))).
Proof.
  revert calls i. induction l as [|c' l IH]; intros calls [|i] Hi; simpl in *;
    try done.
  - injection Hi as ->. by rewrite Nat.add_0_r.
  - rewrite (IH (S calls) i Hi). do 2 f_equal. lia.
Qed.

Lemma text_loop_calls count (l : list Chunk) :
  filter (λ e, is_call e) (text_loop_events count l)
  = (λ c, EvInvokeText (summary_prompt (text c))) <$> l.
Proof.
  revert count. induction l as [|c l IH]; intros count; [done|].
  cbn [text_loop_events]. rewrite filter_cons_False by (simpl; intros []).
  rewrite filter_app, filter_cons_True by done.
  rewrite IH, fmap_cons.
  destruct (bool_decide ((count + 1) `mod` 10 = 0)); [|done].
  by rewrite !filter_cons_False by (simpl; intros []).
Qed.

Lemma table_loop_calls count (l : list Chunk) :
  filter (λ e, is_call e) (table_loop_events count l)
  = (λ c, EvInvokeText (summary_prompt (text c))) <$> l.
Proof.
  revert count. induction l as [|c l IH]; intros count; [done|].
  cbn [table_loop_events]. rewrite filter_cons_False by (simpl; intros []).
  rewrite filter_cons_True by done. by rewrite IH.
Qed.

(** X8: [create_summary] leaves the object alone and asks the text model
    once per text and once per table, in that order and in document
    order; the [i]-th summary of each list is the reply to the prompt
    built from the [i]-th chunk, so the lists it returns are as long as
    [self.texts] and [self.tables]. *)
Theorem X8_create_summary_one_reply_per_chunk w :
  ∃ text_summaries table_summaries w',
    create_summary text_llm w = (Ok (text_summaries, table_summaries), w') ∧
    length text_summaries = length (texts (self w)) ∧
    length table_summaries = length (tables (self w)) ∧
    (∀ i c, texts (self w) !! i = Some c →
            text_summaries !! i
            = Some (text_llm (llm_calls w + i) (summary_prompt (text c)))) ∧
    (∀ i c, tables (self w) !! i = Some c →
            table_summaries !! i
            = Some (text_llm (llm_calls w + length (texts (self w)) + i)
                      (summary_prompt (text c)))) ∧
    filter (λ e, is_call e) (events w')
    = filter (λ e, is_call e) (events w)
      ++ ((λ c, EvInvokeText (summary_prompt (text c)))
            <$> texts (self w) ++ tables (self w)) ∧
    llm_calls w' = llm_calls w + length (texts (self w)) + length (tables (self w)) ∧
    uuid_draws w' = uuid_draws w ∧
    self w' = self w.
Proof.
  eexists. eexists. eexists. split; [apply create_summary_spec|].
  split; [apply text_replies_length|].
  split; [apply text_replies_length|].
  split; [intros i c Hi; by apply text_replies_lookup|].
  split; [intros i c Hi; by apply text_replies_lookup|].
  split; [|done].
  cbn [events]. rewrite !filter_app, text_loop_calls, table_loop_calls.
  rewrite filter_cons_False by (simpl; intros []).
  by rewrite filter_nil, fmap_app.
Qed.

Lemma tenth_call_counts count :
  (if bool_decide ((count + 1) `mod` 10 = 0) then 1 else 0) + count `div` 10
  = (count + 1) `div` 10.
Proof.
  pose proof (Nat.div_mod_eq count 10) as H1.
  pose proof (Nat.div_mod_eq (count + 1) 10) as H2.
  pose proof (Nat.mod_upper_bound count 10 ltac:(lia)) as H3.
  pose proof (Nat.mod_upper_bound (count + 1) 10 ltac:(lia)) as H4.
  case_bool_decide; lia.
Qed.

Lemma text_loop_sleeps count (l : list Chunk) :
  length (filter (λ e, is_sleep e) (text_loop_events count l)) + count `div` 10
  = (count + length l) `div` 10.
Proof.
  revert count. induction l as [|c l IH]; intros count.
  - simpl. by rewrite Nat.add_0_r.
  - cbn [text_loop_events length].
    rewrite filter_cons_False by (simpl; intros []).
    rewrite filter_app, filter_cons_False by (simpl; intros []).
    rewrite length_app.
    replace (count + S (length l)) with (count + 1 + length l) by lia.
    rewrite <- IH, <- (tenth_call_counts count).
    destruct (bool_decide ((count + 1) `mod` 10 = 0)).
    + rewrite filter_cons_False by (simpl; intros []).
      rewrite filter_cons_True by done. simpl. lia.
    + simpl. lia.
Qed.

Lemma table_loop_sleeps count (l : list Chunk) :
  filter (λ e, is_sleep e) (table_loop_events count l) = [].
Proof.
  revert count. induction l as [|c l IH]; intros count; [done|].
  cbn [table_loop_events]. by rewrite !filter_cons_False by (simpl; intros []).
Qed.

Lemma text_loop_sleep_events count (l : list Chunk) :
  filter (λ e, is_sleep e) (text_loop_events count l)
  = replicate (length (filter (λ e, is_sleep e) (text_loop_events count l)))
      (EvSleep 500).
Proof.
  revert count. induction l as [|c l IH]; intros count; [done|].
  cbn [text_loop_events].
  rewrite filter_cons_False by (simpl; intros []).
  rewrite filter_app, filter_cons_False by (simpl; intros []).
  rewrite length_app, replicate_add, <- IH. f_equal.
  destruct (bool_decide ((count + 1) `mod` 10 = 0)); [|done].
  rewrite filter_cons_False by (simpl; intros []).
  by rewrite filter_cons_True.
Qed.

(** X9: [create_summary] sleeps once for every full ten texts and never
    for a table: with [n] texts it adds [n div 10] pauses of half a second
    to the trace, however many tables follow. *)
Theorem X9_create_summary_sleeps_once_per_ten_texts w :
  ∃ summaries w',
    create_summary text_llm w = (Ok summaries, w') ∧
    filter (λ e, is_sleep e) (events w')
    = filter (λ e, is_sleep e) (events w)
      ++ replicate (length (texts (self w)) `div` 10) (EvSleep 500).
Proof.
  eexists. eexists. split; [apply create_summary_spec|].
  cbn [events]. rewrite !filter_app, table_loop_sleeps, app_nil_r.
  rewrite filter_cons_False by (simpl; intros []).
  rewrite filter_nil, app_nil_l. f_equal.
  rewrite text_loop_sleep_events. f_equal.
  pose proof (text_loop_sleeps 0 (texts (self w))) as Hcount.
  rewrite Nat.add_0_l in Hcount. change (0 `div` 10) with 0 in Hcount.
  by rewrite Nat.add_0_r in Hcount.
Qed.

(** X10: [create_img_summary] leaves the object alone and asks the vision
    model once per image, in order, each time to describe the image given
    as a JPEG data URL of its payload; it returns the replies in that
    order and never sleeps. *)
Theorem X10_create_img_summary_one_call_per_image w :
  ∃ img_summaries w',
    create_img_summary vision_llm w = (Ok img_summaries, w') ∧
    length img_summaries = length (images (self w)) ∧
    (∀ j b, images (self w) !! j = Some b →
            img_summaries !! j
            = Some (vision_llm (llm_calls w + j) "describe the image in detail"
                      ("data:image/jpeg;base64," +:+ b))) ∧
    filter (λ e, is_timing e) (events w')
    = filter (λ e, is_timing e) (events w)
      ++ ((λ b, EvInvokeVision "describe the image in detail"
                  ("data:image/jpeg;base64," +:+ b)) <$> images (self w)) ∧
    llm_calls w' = llm_calls w + length (images (self w)) ∧
    uuid_draws w' = uuid_draws w ∧
    self w' = self w.
Proof.
  eexists. eexists. split; [apply create_img_summary_spec|].
  split; [apply image_replies_length|].
  split; [intros j b Hj; by apply image_replies_lookup|].
  split; [|done].
  cbn [events]. rewrite !filter_app, image_loop_timing.
  rewrite filter_cons_False by (simpl; intros []).
  by rewrite filter_nil.
Qed.


(** X12: on a loader that was constructed, and rebound any number of
    times, [getchunks] and [gettexts] change nothing, and what [gettexts]
    returns is what [getchunks] returns filtered by the type name
    [CompositeElement], in the same order. *)
Theorem X12_gettexts_filters_getchunks w :
  reachable partition_pdf text_llm vision_llm uuid4 empty_batch_error w →
  ∃ cs,
    getchunks w = (Ok cs, w) ∧
    gettexts w = (Ok (filter (λ c, is_text c) cs), w).
Proof.
  intros Hreach. apply reachable_stocked in Hreach as (_ & _ & Htexts).
  exists (chunks (self w)). split; [done|].
  unfold gettexts. rewrite bind_get_self. by rewrite Htexts.
Qed.


Hypothesis uuid4_inj : Inj (=) (=) uuid4.

(** X14: [bind_data] can be called again and again: on linked stores
    that hold a text and an image, [n] calls all return and add [n] times
    the contents of the object to each store. *)
Theorem X14_rebinding_adds_the_contents_each_time n w :
  linked uuid4 w →
  stocked (self w) →
  ∃ w',
    rebind uuid4 empty_batch_error n w = (Ok tt, w') ∧
    length (vDB (self w'))
    = length (vDB (self w)) + n * length (contents_of (self w)) ∧
    size (docDB (self w'))
    = size (docDB (self w)) + n * length (contents_of (self w)).
Proof.
  revert w. induction n as [|n IH]; intros w Hl Hst.
  - exists w. split; [done|]. split; lia.
  - pose proof (bound_linked uuid4 uuid4_inj w Hl) as Hl'.
    destruct (IH (bound uuid4 w) Hl' Hst) as (w' & Hrun & Hlen & Hsize).
    exists w'. split.
    + cbn [rebind]. erewrite bind_Ok; [exact Hrun|].
      apply bind_data_spec; [apply Hl|done].
    + rewrite (linked_size uuid4 _ Hl') in Hsize.
      rewrite (linked_size uuid4 _ Hl).
      assert (Hgrow : length (vDB (self (bound uuid4 w)))
                      = length (vDB (self w)) + length (contents_of (self w))).
      { cbn [self bound vDB set_docDB set_vDB]. rewrite length_app.
        unfold new_documents.
        rewrite documents_length, next_ids_len, summaries_of_length by apply Hl.
        lia. }
      rewrite bound_contents in Hlen, Hsize. rewrite Hgrow in Hlen, Hsize.
      split; lia.
Qed.

(** X16: without a text summary [bind_data] hands the vector store an
    empty list of documents and ends with its [ValueError]: the
    identifiers for the texts are drawn and lost, and neither store is
    touched.  Only the batch of the tables is guarded against this. *)
Theorem X16_missing_text_summaries_are_refused w :
  text_summaries (self w) = [] →
  bind_data uuid4 empty_batch_error w
  = (Raise (ValueError empty_batch_error),
     mkWorld (environ w) (uuid_draws w + length (texts (self w)))
       (llm_calls w) (events w) (collection w) (self w)).
Proof. apply bind_data_no_texts. Qed.

(** X17: on a document with a composite chunk and no embedded image the
    constructor summarises every text and every table and then fails:
    [bind_data] files texts and tables and ends with the [ValueError] of
    the vector store at the batch of the images.  No loader is returned,
    and the documents filed stay in the collection of the process. *)
Theorem X17_document_without_image_is_refused path w0 :
  configured w0 →
  filter (λ c, is_text c) (partition_pdf path) ≠ [] →
  images_of (partition_pdf path) = [] →
  ∃ w,
    new_PDFLoader partition_pdf text_llm vision_llm uuid4 empty_batch_error path w0
    = (Raise (ValueError empty_batch_error), w) ∧
    llm_calls w
    = llm_calls w0 + length (filter (λ c, is_text c) (partition_pdf path))
      + length (filter (λ c, is_table c) (partition_pdf path)) ∧
    collection w0 `prefix_of` collection w ∧
    length (collection w)
    = length (collection w0)
      + length (filter (λ c, is_text c) (partition_pdf path))
      + length (filter (λ c, is_table c) (partition_pdf path)).
Proof.
  intros Hconf Htexts Himages.
  set (P := prepared partition_pdf text_llm vision_llm path w0).
  destruct (aligned_batches (self P)) as (Hts & Ht & Hb & Hi);
    [apply prepared_aligned|done|].
  eexists. split.
  { rewrite new_PDFLoader_prepared by done.
    apply bind_data_no_images; try done.
    unfold P. cbn [self prepared image_summaries]. by rewrite Himages. }
  cbn [llm_calls collection].
  unfold bound_tables, bound_texts, index_batch.
  cbn [collection self id_key texts tables text_summaries table_summaries
       set_docDB set_vDB P prepared llm_calls uuid_draws].
  rewrite Himages. cbn [length].
  split; [lia|].
  split; [rewrite <- app_assoc; by eexists|].
  rewrite !length_app, !documents_length, !next_ids_len, !length_fmap,
    !text_replies_length.
  lia.
Qed.

(** X18: the summary collection belongs to the process, the content store
    to the loader.  A constructor that returns leaves a loader whose
    summary collection is that of the process: it begins with every
    document the collection held before, and holds one more document for
    each key of the content store. *)
Theorem X18_loaders_share_the_collection path w0 w :
  new_PDFLoader partition_pdf text_llm vision_llm uuid4 empty_batch_error path w0
  = (Ok tt, w) →
  vDB (self w) = collection w ∧
  collection w0 `prefix_of` vDB (self w) ∧
  length (vDB (self w)) = length (collection w0) + size (docDB (self w)).
Proof.
  intros Hrun.
  apply new_PDFLoader_Ok_inv in Hrun as (_ & _ & ->).
  set (P := prepared partition_pdf text_llm vision_llm path w0).
  cbn [self bound vDB docDB collection set_docDB set_vDB].
  change (vDB (self P)) with (collection w0).
  change (collection P) with (collection w0).
  change (docDB (self P)) with (∅ : gmap string Stored).
  split; [done|]. split; [by eexists|].
  rewrite length_app, store_all_size.
  - rewrite map_size_empty. unfold new_documents, new_pairs.
    rewrite documents_length, length_zip_with, next_ids_len, summaries_of_length
      by apply prepared_aligned.
    lia.
  - unfold new_pairs. rewrite fst_zip by (rewrite next_ids_len; lia).
    unfold next_ids. apply NoDup_fmap_2; [done|apply NoDup_seq].
  - intros k _. apply lookup_empty.
Qed.

End Further.

(** ** The test on type names *)

Lemma prefix_app needle s : String.prefix needle (needle +:+ s) = true.
Proof.
  induction needle as [|a needle IH]; simpl; [by destruct s|].
  destruct (Ascii.ascii_dec a a) as [_|Hne]; [exact IH|by destruct Hne].
Qed.

Lemma prefix_inv needle s :
  String.prefix needle s = true → ∃ post, s = needle +:+ post.
Proof.
  revert s. induction needle as [|a needle IH]; intros s.
  - intros _. by exists s.
  - destruct s as [|b s]; simpl; [done|].
    destruct (Ascii.ascii_dec a b) as [->|]; [|done].
    intros H. destruct (IH s H) as [post ->]. by exists post.
Qed.

Lemma contains_substring needle s :
  contains needle s = true ↔ ∃ pre post, s = pre +:+ needle +:+ post.
Proof.
  induction s as [|a s IH]; cbn [contains].
  - rewrite orb_false_r. split.
    + intros H. destruct (prefix_inv _ _ H) as [post ->]. by exists "", post.
    + intros (pre & post & H).
      destruct pre as [|b pre]; [|done]. by destruct needle.
  - rewrite orb_true_iff, IH. split.
    + intros [H|(pre & post & ->)].
      * destruct (prefix_inv _ _ H) as [post ->]. by exists "", post.
      * by exists (String a pre), post.
    + intros (pre & post & H). destruct pre as [|b pre].
      * left. change (String a s = needle +:+ post) in H.
        rewrite H. apply prefix_app.
      * right. injection H as -> ->. by exists pre, post.
Qed.

(** X15: the kind of a chunk is read off its type name by substring: a
    chunk is taken for a table exactly when [Table] occurs somewhere in
    the name, for a text exactly when [CompositeElement] does, and a
    sub-element for an image exactly when [Image] does, so that a name
    such as [TableChunk] counts as a table. *)
Theorem X15_kinds_are_substrings_of_type_names :
  (∀ c, is_table c = true ↔ ∃ pre post, type_str c = pre +:+ "Table" +:+ post) ∧
  (∀ c, is_text c = true
        ↔ ∃ pre post, type_str c = pre +:+ "CompositeElement" +:+ post) ∧
  (∀ el, is_image el = true ↔ ∃ pre post, el_type_str el = pre +:+ "Image" +:+ post).
Proof.
  split; [|split]; intros x; apply contains_substring.
Qed.

(** ** Further runs on the fixture *)


Lemma X1_witness :
  length (texts (self Tampered.surplus_text))
  < length (text_summaries (self Tampered.surplus_text)) ∧
  bind_data Fixture.uuid4 Fixture.empty_batch_error Tampered.surplus_text
  = (Raise IndexError,
     mkWorld (environ Tampered.surplus_text)
       (uuid_draws Tampered.surplus_text + length (texts (self Tampered.surplus_text)))
       (llm_calls Tampered.surplus_text) (events Tampered.surplus_text)
       (collection Tampered.surplus_text) (self Tampered.surplus_text)).
Proof.
  assert (H : length (texts (self Tampered.surplus_text))
              < length (text_summaries (self Tampered.surplus_text)))
    by (vm_compute; lia).
  split; [exact H|].
  exact (X1_surplus_text_summary_raises Fixture.uuid4 Fixture.empty_batch_error
           Tampered.surplus_text H).
Defined.

Lemma X2_witness :
  text_summaries (self Tampered.surplus_table) ≠ [] ∧
  tables (self Tampered.surplus_table) ≠ [] ∧
  length (tables (self Tampered.surplus_table))
  < length (table_summaries (self Tampered.surplus_table)) ∧
  bind_data Fixture.uuid4 Fixture.empty_batch_error Tampered.surplus_table
  = (Raise IndexError,
     mkWorld (environ Tampered.surplus_table)
       (uuid_draws Tampered.surplus_table
        + length (texts (self Tampered.surplus_table))
        + length (tables (self Tampered.surplus_table)))
       (llm_calls Tampered.surplus_table) (events Tampered.surplus_table)
       (collection (bound_texts Fixture.uuid4 Tampered.surplus_table))
       (self (bound_texts Fixture.uuid4 Tampered.surplus_table))).
Proof.
  assert (H0 : text_summaries (self Tampered.surplus_table) ≠ [])
    by (vm_compute; discriminate).
  assert (H1 : length (text_summaries (self Tampered.surplus_table))
               ≤ length (texts (self Tampered.surplus_table)))
    by (vm_compute; lia).
  assert (H2 : tables (self Tampered.surplus_table) ≠ [])
    by (vm_compute; discriminate).
  assert (H3 : length (tables (self Tampered.surplus_table))
               < length (table_summaries (self Tampered.surplus_table)))
    by (vm_compute; lia).
  split; [exact H0|]. split; [exact H2|]. split; [exact H3|].
  exact (X2_surplus_table_summary_raises_midway Fixture.uuid4
           Fixture.empty_batch_error Tampered.surplus_table H0 H1 H2 H3).
Defined.

Lemma X3_witness :
  tables (self Tampered.no_table) = [] ∧
  table_summaries (self Tampered.no_table) = ["text summary 2"] ∧
  text_summaries (self Tampered.no_table) ≠ [] ∧
  image_summaries (self Tampered.no_table) ≠ [] ∧
  bind_data Fixture.uuid4 Fixture.empty_batch_error Tampered.no_table
  = (Ok tt,
     index_batch Fixture.uuid4 (image_summaries (self Tampered.no_table))
       (StoredImage <$> images (self Tampered.no_table))
       (bound_texts Fixture.uuid4 Tampered.no_table)).
Proof.
  assert (H1 : tables (self Tampered.no_table) = []) by (vm_compute; reflexivity).
  assert (H2 : text_summaries (self Tampered.no_table) ≠ [])
    by (vm_compute; discriminate).
  assert (H3 : length (text_summaries (self Tampered.no_table))
               ≤ length (texts (self Tampered.no_table)))
    by (vm_compute; lia).
  assert (H4 : image_summaries (self Tampered.no_table) ≠ [])
    by (vm_compute; discriminate).
  assert (H5 : length (image_summaries (self Tampered.no_table))
               ≤ length (images (self Tampered.no_table)))
    by (vm_compute; lia).
  split; [exact H1|]. split; [vm_compute; reflexivity|].
  split; [exact H2|]. split; [exact H4|].
  exact (X3_table_summaries_ignored_without_tables Fixture.uuid4
           Fixture.empty_batch_error Tampered.no_table H1 H2 H3 H4 H5).
Defined.

Lemma X4_witness :
  text_summaries (self Tampered.no_image) ≠ [] ∧
  table_summaries (self Tampered.no_image) ≠ [] ∧
  images (self Tampered.no_image) = [] ∧
  image_summaries (self Tampered.no_image) = ["image summary 3"] ∧
  bind_data Fixture.uuid4 Fixture.empty_batch_error Tampered.no_image
  = (Raise IndexError,
     mkWorld (environ Tampered.no_image)
       (uuid_draws Tampered.no_image + length (texts (self Tampered.no_image))
        + length (tables (self Tampered.no_image))
        + length (images (self Tampered.no_image)))
       (llm_calls Tampered.no_image) (events Tampered.no_image)
       (collection (bound_tables Fixture.uuid4 Tampered.no_image))
       (self (bound_tables Fixture.uuid4 Tampered.no_image))).
Proof.
  assert (H0 : text_summaries (self Tampered.no_image) ≠ [])
    by (vm_compute; discriminate).
  assert (H1 : length (text_summaries (self Tampered.no_image))
               ≤ length (texts (self Tampered.no_image)))
    by (vm_compute; lia).
  assert (H2 : table_summaries (self Tampered.no_image) ≠ [])
    by (vm_compute; discriminate).
  assert (H3 : length (table_summaries (self Tampered.no_image))
               ≤ length (tables (self Tampered.no_image)))
    by (vm_compute; lia).
  assert (H4 : length (images (self Tampered.no_image))
               < length (image_summaries (self Tampered.no_image)))
    by (vm_compute; lia).
  split; [exact H0|]. split; [exact H2|].
  split; [vm_compute; reflexivity|]. split; [vm_compute; reflexivity|].
  exact (X4_surplus_image_summary_raises_at_the_end Fixture.uuid4
           Fixture.empty_batch_error Tampered.no_image H0 H1
           (or_intror (conj H2 H3)) H4).
Defined.

Lemma X5_witness :
  text_summaries (self Tampered.one_text_summary) = ["text summary 0"] ∧
  length (texts (self Tampered.one_text_summary)) = 2 ∧
  ∃ w',
    bind_data Fixture.uuid4 Fixture.empty_batch_error Tampered.one_text_summary
    = (Ok tt, w') ∧
    length (vDB (self w'))
    = length (vDB (self Tampered.one_text_summary))
      + length (summaries_of (self Tampered.one_text_summary)) ∧
    dom (docDB (self w'))
    = dom (docDB (self Tampered.one_text_summary))
      ∪ list_to_set (next_ids Fixture.uuid4 Tampered.one_text_summary
                       (length (contents_of (self Tampered.one_text_summary)))) ∧
    uuid_draws w'
    = uuid_draws Tampered.one_text_summary
      + length (contents_of (self Tampered.one_text_summary)).
Proof.
  assert (H0 : text_summaries (self Tampered.one_text_summary) ≠ [])
    by (vm_compute; discriminate).
  assert (H1 : length (text_summaries (self Tampered.one_text_summary))
               ≤ length (texts (self Tampered.one_text_summary)))
    by (vm_compute; lia).
  assert (H2 : table_summaries (self Tampered.one_text_summary) ≠ [])
    by (vm_compute; discriminate).
  assert (H3 : length (table_summaries (self Tampered.one_text_summary))
               ≤ length (tables (self Tampered.one_text_summary)))
    by (vm_compute; lia).
  assert (H4 : image_summaries (self Tampered.one_text_summary) ≠ [])
    by (vm_compute; discriminate).
  assert (H5 : length (image_summaries (self Tampered.one_text_summary))
               ≤ length (images (self Tampered.one_text_summary)))
    by (vm_compute; lia).
  split; [vm_compute; reflexivity|]. split; [vm_compute; reflexivity|].
  exact (X5_missing_summaries_leave_stores_out_of_step Fixture.uuid4
           Fixture.empty_batch_error Tampered.one_text_summary H0 H1
           (or_intror (conj H2 H3)) H4 H5).
Defined.


Lemma X12_witness :
  reachable Fixture.partition_pdf Fixture.text_llm Fixture.vision_llm
    Fixture.uuid4 Fixture.empty_batch_error Fixture.loaded ∧
  ∃ cs,
    getchunks Fixture.loaded = (Ok cs, Fixture.loaded) ∧
    gettexts Fixture.loaded = (Ok (filter (λ c, is_text c) cs), Fixture.loaded).
Proof.
  split; [apply fixture_reachable|].
  apply (X12_gettexts_filters_getchunks Fixture.partition_pdf Fixture.text_llm
           Fixture.vision_llm Fixture.uuid4 Fixture.empty_batch_error
           Fixture.loaded fixture_reachable).
Defined.


Lemma X14_witness :
  linked Fixture.uuid4 Fixture.loaded ∧
  stocked (self Fixture.loaded) ∧
  ∃ w',
    rebind Fixture.uuid4 Fixture.empty_batch_error 3 Fixture.loaded = (Ok tt, w') ∧
    length (vDB (self w'))
    = length (vDB (self Fixture.loaded))
      + 3 * length (contents_of (self Fixture.loaded)) ∧
    size (docDB (self w'))
    = size (docDB (self Fixture.loaded))
      + 3 * length (contents_of (self Fixture.loaded)).
Proof.
  split; [apply fixture_loaded_linked|].
  split; [apply fixture_loaded_stocked|].
  apply (X14_rebinding_adds_the_contents_each_time Fixture.uuid4
           Fixture.empty_batch_error fixture_uuid4_inj 3 Fixture.loaded
           fixture_loaded_linked fixture_loaded_stocked).
Defined.

Lemma X16_witness :
  text_summaries (self Tampered.no_text_summary) = [] ∧
  length (texts (self Tampered.no_text_summary)) = 2 ∧
  bind_data Fixture.uuid4 Fixture.empty_batch_error Tampered.no_text_summary
  = (Raise (ValueError Fixture.empty_batch_error),
     mkWorld (environ Tampered.no_text_summary)
       (uuid_draws Tampered.no_text_summary
        + length (texts (self Tampered.no_text_summary)))
       (llm_calls Tampered.no_text_summary) (events Tampered.no_text_summary)
       (collection Tampered.no_text_summary) (self Tampered.no_text_summary)).
Proof.
  assert (H : text_summaries (self Tampered.no_text_summary) = [])
    by (vm_compute; reflexivity).
  split; [exact H|]. split; [vm_compute; reflexivity|].
  exact (X16_missing_text_summaries_are_refused Fixture.uuid4
           Fixture.empty_batch_error Tampered.no_text_summary H).
Defined.

Lemma X17_witness :
  configured Fixture.start ∧
  filter (λ c, is_text c) (Fixture.partition_plain "plain.pdf") ≠ [] ∧
  images_of (Fixture.partition_plain "plain.pdf") = [] ∧
  ∃ w,
    new_PDFLoader Fixture.partition_plain Fixture.text_llm Fixture.vision_llm
      Fixture.uuid4 Fixture.empty_batch_error "plain.pdf" Fixture.start
    = (Raise (ValueError Fixture.empty_batch_error), w) ∧
    llm_calls w
    = llm_calls Fixture.start
      + length (filter (λ c, is_text c) (Fixture.partition_plain "plain.pdf"))
      + length (filter (λ c, is_table c) (Fixture.partition_plain "plain.pdf")) ∧
    collection Fixture.start `prefix_of` collection w ∧
    length (collection w)
    = length (collection Fixture.start)
      + length (filter (λ c, is_text c) (Fixture.partition_plain "plain.pdf"))
      + length (filter (λ c, is_table c) (Fixture.partition_plain "plain.pdf")).
Proof.
  assert (H1 : filter (λ c, is_text c) (Fixture.partition_plain "plain.pdf") ≠ [])
    by (vm_compute; discriminate).
  assert (H2 : images_of (Fixture.partition_plain "plain.pdf") = [])
    by (vm_compute; reflexivity).
  split; [apply fixture_configured|].
  split; [exact H1|]. split; [exact H2|].
  exact (X17_document_without_image_is_refused Fixture.partition_plain
           Fixture.text_llm Fixture.vision_llm Fixture.uuid4
           Fixture.empty_batch_error "plain.pdf" Fixture.start
           fixture_configured H1 H2).
Defined.

Lemma X18_witness :
  length (collection Fixture.loaded) = 4 ∧
  vDB (self Fixture.loaded_again) = collection Fixture.loaded_again ∧
  collection Fixture.loaded `prefix_of` vDB (self Fixture.loaded_again) ∧
  length (vDB (self Fixture.loaded_again))
  = length (collection Fixture.loaded) + size (docDB (self Fixture.loaded_again)).
Proof.
  split; [vm_compute; reflexivity|].
  apply (X18_loaders_share_the_collection Fixture.partition_pdf Fixture.text_llm
           Fixture.vision_llm Fixture.uuid4 Fixture.empty_batch_error
           fixture_uuid4_inj "report.pdf" Fixture.loaded Fixture.loaded_again).
  vm_compute. reflexivity.
Defined.
